(** * Solytics: pagination, normalisation and aggregation of Solscan data

    A shallow embedding of [src/App.jsx] (the [fetchAll] controller, the
    two row normalisers, the client-side date filter, [groupByDate] and the
    time column of the export and of the table) and of [src/solscan.js]
    (the three API helpers and the [iterTransactions] generator), followed
    by the properties of the specification that concern them.

    Modelling conventions.
    - A JavaScript value is a [value]; the numbers the program handles
      (epoch seconds, slots, lamports, page counts) are integers and are
      modelled by [Z].  An object is the list of its own properties, the
      first binding of a key being the property's value.  A string is a
      sequence of characters; its length and its iteration go character
      by character.
    - The network is an oracle [Network]: the answer to the [n]-th request
      of a run.  Every effect of [fetchAll] (a request with its answer, a
      React state setter, a [sleep]) is an [event]; a run is the list of
      its events together with the way it ended.
    - The two [for(;;)] loops are driven by a fuel: a run that exhausts it
      is [Pending], it has neither completed nor failed. *)

From Stdlib Require Import ZArith List String Ascii Bool Lia Sorted Permutation.
Import ListNotations.

Local Open Scope string_scope.
Local Open Scope Z_scope.
Local Open Scope list_scope.

(** ** JavaScript values *)

#[local] Set Warnings "-register-all".

Inductive value : Type :=
| VUndefined
| VNull
| VBool (b : bool)
| VNum (n : Z)
| VStr (s : string)
| VArr (elts : list value)
| VObj (fields : list (string * value)).

(** [ToBoolean]. *)
Definition truthy (v : value) : bool :=
  match v with
  | VUndefined | VNull => false
  | VBool b => b
  | VNum n => negb (n =? 0)
  | VStr s => negb (s =? "")%string
  | VArr _ | VObj _ => true
  end.

(** [a || b] and [a ?? b]. *)
Definition js_or (a b : value) : value := if truthy a then a else b.

Definition nullish (v : value) : bool :=
  match v with VUndefined | VNull => true | _ => false end.

Definition js_coalesce (a b : value) : value := if nullish a then b else a.

Fixpoint lookup (k : string) (fields : list (string * value)) : option value :=
  match fields with
  | [] => None
  | (k', v) :: rest => if (k' =? k)%string then Some v else lookup k rest
  end.

(** [v.k] for the property names the program reads ([data], [list],
    [length] and the field aliases); [v] is not [null] or [undefined]. *)
Definition get_prop (v : value) (k : string) : value :=
  match v with
  | VObj fields => match lookup k fields with Some x => x | None => VUndefined end
  | VArr elts => if (k =? "length")%string then VNum (Z.of_nat (List.length elts)) else VUndefined
  | VStr s => if (k =? "length")%string then VNum (Z.of_nat (String.length s)) else VUndefined
  | _ => VUndefined
  end.

(** [v?.k]. *)
Definition opt_get (v : value) (k : string) : value :=
  if nullish v then VUndefined else get_prop v k.

(** What the JavaScript runtime and luxon compute and the model leaves
    open: the theorems hold whatever these functions are.  The three
    luxon functions stand for what luxon returns for seconds it can turn
    into a valid date; beyond the range of [Date] (8.64e15 ms either side
    of the epoch) luxon returns [null], which they do not cover. *)
Class Runtime : Type := {
  (** [ToNumber] of a string or of an array ([None] is [NaN]). *)
  coerceToNumber : value -> option Z;
  (** [o[o.length - 1]] for a plain object [o]. *)
  indexLast : list (string * value) -> value;
  (** [DateTime.fromSeconds(ts).toISODate()]. *)
  toISODate : Z -> string;
  (** [DateTime.fromSeconds(ts).toISO()]. *)
  toISO : Z -> string;
  (** [DateTime.fromSeconds(ts).toUTC().toISO({suppressMilliseconds:true})]. *)
  toUTCISO : Z -> string
}.

Section Values.
Context {rt : Runtime}.

(** [ToNumber]; [None] is [NaN]. *)
Definition to_number (v : value) : option Z :=
  match v with
  | VUndefined => None
  | VNull => Some 0
  | VBool b => Some (if b then 1 else 0)
  | VNum n => Some n
  | VStr _ | VArr _ => coerceToNumber v
  | VObj _ => None
  end.

(** [v >= bound] and [v <= bound] for a number [bound]. *)
Definition js_ge (v : value) (bound : Z) : bool :=
  match to_number v with Some n => bound <=? n | None => false end.

Definition js_le (v : value) (bound : Z) : bool :=
  match to_number v with Some n => n <=? bound | None => false end.

(** [list[list.length - 1]], [lst] standing for [list]. *)
Definition last_elem (lst : value) : value :=
  match lst with
  | VArr elts => last elts VUndefined
  | VStr s =>
      match rev (list_ascii_of_string s) with
      | c :: _ => VStr (String c EmptyString)
      | [] => VUndefined
      end
  | VObj fields => indexLast fields
  | _ => VUndefined
  end.

End Values.

(** The elements [for (const t of page)] visits; [None] when [page] is not
    iterable (a [TypeError]).  A string is visited character by character. *)
Definition iter_elems (page : value) : option (list value) :=
  match page with
  | VArr elts => Some elts
  | VStr s => Some (map (fun c => VStr (String c EmptyString)) (list_ascii_of_string s))
  | _ => None
  end.

(** ** Rows and the two normalisers *)

Record Row : Type := mkRow {
  blockTime : value;
  signature : value;
  slot : value;
  fee : value;
  err : value
}.

(** App.jsx, lines 58-65: a balance-change entry. *)
Definition normalizeBalance (x : value) : Row :=
  {| blockTime := js_or (js_or (get_prop x "block_time") (get_prop x "blockTime")) (get_prop x "ts");
     signature := js_or (get_prop x "tx_hash") (get_prop x "txHash");
     slot := js_or (get_prop x "slot") VNull;
     fee := js_or (get_prop x "fee") (VNum 0);
     err := js_or (get_prop x "err") VNull |}.

(** App.jsx, lines 77-83: a transaction entry. *)
Definition normalizeTx (t : value) : Row :=
  {| blockTime := js_or (js_or (get_prop t "blockTime") (get_prop t "blockTimeUnix")) (get_prop t "block_time");
     signature := js_or (get_prop t "txHash") (get_prop t "txhash");
     slot := js_coalesce (get_prop t "slot") VNull;
     fee := js_or (js_or (get_prop t "fee") (get_prop t "feeLamports")) (VNum 0);
     err := js_or (js_or (get_prop t "err") (get_prop t "error")) VNull |}.

(** Reading a property of [null] or [undefined] throws: normalising a list
    of entries fails as soon as one of them is nullish. *)
Definition normalize_all (f : value -> Row) (elts : list value) : option (list Row) :=
  if existsb nullish elts then None else Some (map f elts).

(** [list.map(x => ({...}))] of line 58: the rows of a balance-change
    page, or [None] for the [TypeError] raised when [list] is not an array
    or holds a nullish entry. *)
Definition balance_rows (lst : value) : option (list Row) :=
  match lst with
  | VArr elts => normalize_all normalizeBalance elts
  | _ => None
  end.

(** [for (const t of page) out2.push({...})] of lines 76-84: the rows
    pushed for a transaction page, or [None] for a [TypeError]. *)
Definition tx_rows (page : value) : option (list Row) :=
  match iter_elems page with
  | Some elts => normalize_all normalizeTx elts
  | None => None
  end.

(** ** Client-side date filter (App.jsx, lines 86-87) *)

Definition epoch_truthy (e : option Z) : bool :=
  match e with Some n => negb (n =? 0) | None => false end.

Definition epoch_or (e : option Z) (d : Z) : Z :=
  match e with Some n => if n =? 0 then d else n | None => d end.

Section Filter.
Context {rt : Runtime}.

Definition keep_start (s : Z) (r : Row) : bool :=
  negb (truthy (blockTime r)) || js_ge (blockTime r) s.

Definition keep_end (e : Z) (r : Row) : bool :=
  negb (truthy (blockTime r)) || js_le (blockTime r) e.

Definition filter_start (startEpoch : option Z) (out2 : list Row) : list Row :=
  if epoch_truthy startEpoch then filter (keep_start (epoch_or startEpoch 0)) out2 else out2.

Definition filter_end (endEpoch : option Z) (out2 : list Row) : list Row :=
  if epoch_truthy endEpoch then filter (keep_end (epoch_or endEpoch 0)) out2 else out2.

Definition date_filter (startEpoch endEpoch : option Z) (out2 : list Row) : list Row :=
  filter_end endEpoch (filter_start startEpoch out2).

(** ** Chart grouping (App.jsx, lines 11-20) *)

(** [m.set(d, (m.get(d) || 0) + 1)] on a [Map] in insertion order. *)
Fixpoint bump (d : string) (m : list (string * Z)) : list (string * Z) :=
  match m with
  | [] => [(d, 1)]
  | (k, c) :: m' => if (k =? d)%string then (k, c + 1) :: m' else (k, c) :: bump d m'
  end.

(** One turn of the loop; [None] when [DateTime.fromSeconds] rejects a
    time stamp that is not a number. *)
Definition group_step (m : list (string * Z)) (r : Row) : option (list (string * Z)) :=
  let ts := js_or (js_or (js_or (blockTime r) VUndefined) VUndefined) (VNum 0) in
  if negb (truthy ts) then Some m
  else match ts with
       | VNum n => Some (bump (toISODate n) m)
       | _ => None
       end.

Fixpoint group_loop (m : list (string * Z)) (rows : list Row) : option (list (string * Z)) :=
  match rows with
  | [] => Some m
  | r :: rest =>
      match group_step m r with
      | Some m' => group_loop m' rest
      | None => None
      end
  end.

Fixpoint insert_by_date (e : string * Z) (l : list (string * Z)) : list (string * Z) :=
  match l with
  | [] => [e]
  | e' :: l' => if String.ltb (fst e) (fst e') then e :: l else e' :: insert_by_date e l'
  end.

Definition sort_by_date (l : list (string * Z)) : list (string * Z) :=
  fold_right insert_by_date [] l.

Definition groupByDate (rows : list Row) : option (list (string * Z)) :=
  match group_loop [] rows with
  | Some m => Some (sort_by_date m)
  | None => None
  end.

(** ** The time column of the CSV export and of the table
    (App.jsx, lines 106 and 209) *)

Definition exportCSV_time_iso (r : Row) : option string :=
  if truthy (blockTime r) then
    match blockTime r with VNum n => Some (toISO n) | _ => None end
  else Some "".

Definition render_time (r : Row) : option string :=
  if truthy (blockTime r) then
    match blockTime r with VNum n => Some (toUTCISO n) | _ => None end
  else Some "".

End Filter.

(** ** Requests, answers, events *)

Inductive request : Type :=
| ReqDetail (address apiKey : string)
| ReqBalance (address apiKey : string) (from to page pageSize : Z)
| ReqTx (address apiKey : string) (limit : Z) (beforeHash : value).

(** The answer to a request: [fetch] or [res.json()] rejected, a response
    with [res.ok] false, or the parsed body of a successful response. *)
Inductive http_result : Type :=
| Rejected (msg : string)
| HttpNotOk (status : Z)
| HttpOk (body : value).

Definition Network : Type := nat -> request -> http_result.

Inductive exn : Type :=
| ErrNoApiKey
| ErrNoAddress
| ErrAccountDetail (status : Z)
| ErrBalanceChanges (status : Z)
| ErrTransactions (status : Z)
| ErrRejected (msg : string)
| ErrTypeError.

Inductive status_t : Type :=
| StIdle
| StFetchingAccount
| StFetchingBalanceChanges
| StFetchingTransactions
| StFetched (n : Z)
| StDone
| StFailed (e : exn).

Inductive event : Type :=
| Net (req : request) (res : http_result)
| SetLoading (b : bool)
| SetStatus (s : status_t)
| SetProgress (p : Z)
| SetAcct (a : value)
| SetRows (rs : list Row)
| Sleep (ms : Z).

(** The component state the events write. *)
Record State : Type := mkState {
  status : status_t;
  loading : bool;
  progress : Z;
  acct : value;
  rows : list Row
}.

Definition apply_event (st : State) (e : event) : State :=
  match e with
  | Net _ _ | Sleep _ => st
  | SetLoading b => mkState (status st) b (progress st) (acct st) (rows st)
  | SetStatus s => mkState s (loading st) (progress st) (acct st) (rows st)
  | SetProgress p => mkState (status st) (loading st) p (acct st) (rows st)
  | SetAcct a => mkState (status st) (loading st) (progress st) a (rows st)
  | SetRows rs => mkState (status st) (loading st) (progress st) (acct st) rs
  end.

Definition replay (st : State) (tr : list event) : State := fold_left apply_event tr st.

(** The initial state of the component (the [useState] defaults). *)
Definition initial_state : State := mkState StIdle false 0 VNull [].

(** ** A monad for the effects of an [async] function

    A computation is given the number of requests issued so far; it
    returns the events it emitted, the new number of requests, and how it
    ended. *)

Inductive outcome (A : Type) : Type :=
| Ok (a : A)
| Throw (e : exn)
| Pending.

Arguments Ok {A} a.
Arguments Throw {A} e.
Arguments Pending {A}.

Definition M (A : Type) : Type := nat -> list event * nat * outcome A.

Definition ret {A} (a : A) : M A := fun n => ([], n, Ok a).

Definition bind {A B} (m : M A) (f : A -> M B) : M B := fun n =>
  match m n with
  | (t1, n1, Ok a) =>
      match f a n1 with
      | (t2, n2, r) => (t1 ++ t2, n2, r)
      end
  | (t1, n1, Throw e) => (t1, n1, Throw e)
  | (t1, n1, Pending) => (t1, n1, Pending)
  end.

Definition emit (e : event) : M unit := fun n => ([e], n, Ok tt).

Definition throw {A} (e : exn) : M A := fun n => ([], n, Throw e).

Definition pending {A} : M A := fun n => ([], n, Pending).

(** [try { body } catch (e) { handler e } finally { fin }]; a body that is
    still running has reached neither. *)
Definition try_catch_finally (body : M unit) (handler : exn -> M unit) (fin : M unit) : M unit :=
  fun n =>
    match body n with
    | (t1, n1, Ok _) =>
        match fin n1 with (t2, n2, r) => (t1 ++ t2, n2, r) end
    | (t1, n1, Throw e) =>
        match bind (handler e) (fun _ => fin) n1 with (t2, n2, r) => (t1 ++ t2, n2, r) end
    | (t1, n1, Pending) => (t1, n1, Pending)
    end.

Declare Scope js_scope.
Delimit Scope js_scope with js.
Notation "x <- m ;; k" := (bind m (fun x => k))
  (at level 61, m at next level, right associativity) : js_scope.
Notation "m ;; k" := (bind m (fun _ => k))
  (at level 61, right associativity) : js_scope.
Local Open Scope js_scope.

Definition of_option {A} (o : option A) (e : exn) : M A :=
  match o with Some a => ret a | None => throw e end.

Definition sleep (ms : Z) : M unit := emit (Sleep ms).

(** ** solscan.js *)

Section Solscan.
Context {rt : Runtime}.
Variable net : Network.

(** [await fetch(url, ...)] followed by the [res.ok] test and
    [await res.json()]. *)
Definition http (req : request) (not_ok : Z -> exn) : M value := fun n =>
  ([Net req (net n req)], S n,
   match net n req with
   | Rejected msg => Throw (ErrRejected msg)
   | HttpNotOk st => Throw (not_ok st)
   | HttpOk body => Ok body
   end).

Definition getAccountDetail (address apiKey : string) : M value :=
  http (ReqDetail address apiKey) ErrAccountDetail.

Definition getBalanceChanges (address apiKey : string) (from to page pageSize : Z) : M value :=
  http (ReqBalance address apiKey from to page pageSize) ErrBalanceChanges.

(** The generator [iterTransactions] between two calls of [next()]: not
    started, or suspended at [yield list]. *)
Inductive gen : Type :=
| GenStart
| GenSuspended (lst : value).

(** One turn of the [for(;;)] of [iterTransactions], from the request to
    the [yield]: [Some list] is a yielded batch, [None] the end of the
    sequence. *)
Definition gen_fetch (address apiKey : string) (limit : Z) (beforeHash : value) : M (option value) :=
  out <- http (ReqTx address apiKey limit beforeHash) ErrTransactions ;;
  let lst := js_or (opt_get out "data") (VArr []) in
  if negb (truthy (get_prop lst "length")) then ret None
  else ret (Some lst).

(** [next()]: resuming after a [yield] first derives the cursor from the
    last element of the batch just yielded. *)
Definition gen_next (address apiKey : string) (limit : Z) (g : gen) : M (option value) :=
  match g with
  | GenStart => gen_fetch address apiKey limit VUndefined
  | GenSuspended lst =>
      let beforeHash := opt_get (last_elem lst) "txHash" in
      if negb (truthy beforeHash) then ret None
      else gen_fetch address apiKey limit beforeHash
  end.

(** The batches the generator yields from state [g] to a consumer that
    resumes it until it ends. *)
Fixpoint iterTransactions_from (fuel : nat) (address apiKey : string) (limit : Z) (g : gen)
    : M (list value) :=
  match fuel with
  | O => pending
  | S fuel' =>
      nx <- gen_next address apiKey limit g ;;
      match nx with
      | None => ret []
      | Some lst =>
          rest <- iterTransactions_from fuel' address apiKey limit (GenSuspended lst) ;;
          ret (lst :: rest)
      end
  end.

(** [iterTransactions(address, apiKey, limit)], lines 22-43. *)
Definition iterTransactions (fuel : nat) (address apiKey : string) (limit : Z) : M (list value) :=
  iterTransactions_from fuel address apiKey limit GenStart.

End Solscan.

(** ** App.jsx: [fetchAll] *)

Record Config : Type := mkConfig {
  apiKey : string;
  address : string;
  (** [startEpoch] and [endEpoch]: a number of seconds, or [null].  The
      end of the day that [endEpoch] denotes is kept by its integer part,
      which decides every comparison with an integer time stamp. *)
  startEpoch : option Z;
  endEpoch : option Z;
  maxRows : Z;
  (** [Math.floor(Date.now()/1000)]. *)
  now : Z
}.

Section Controller.
Context {rt : Runtime}.
Variable cfg : Config.
Variable net : Network.

(** [Math.round(len / Math.max(500, maxRows) * 35)], the quotient taken
    exactly.  JavaScript rounds the quotient to a double before it takes
    the product, so that its result is one less than this one for some
    values half-way between two integers (376 rows under a cap of 560:
    23, where the exact 23.5 rounds to 24). *)
Definition round_share (len : Z) : Z :=
  let m := Z.max 500 (maxRows cfg) in
  (2 * 35 * len + m) / (2 * m).

Definition tx_progress (len : Z) : Z := Z.min 95 (60 + round_share len).

Definition len (rs : list Row) : Z := Z.of_nat (List.length rs).

Definition map_balance (lst : value) : M (list Row) :=
  of_option (balance_rows lst) ErrTypeError.

Definition push_tx (page : value) : M (list Row) :=
  of_option (tx_rows page) ErrTypeError.

(** Lines 55-69. *)
Fixpoint balanceLoop (fuel : nat) (from to page : Z) (out : list Row) : M (list Row) :=
  match fuel with
  | O => pending
  | S fuel' =>
      r <- getBalanceChanges net (address cfg) (apiKey cfg) from to page 100 ;;
      let lst := js_or (opt_get (opt_get r "data") "list") (VArr []) in
      new <- map_balance lst ;;
      let out := out ++ new in
      emit (SetRows out) ;;
      emit (SetProgress (Z.min 80 (20 + page * 4))) ;;
      if negb (truthy (get_prop lst "length")) || (maxRows cfg <=? len out) then ret out
      else
        sleep 120 ;;
        balanceLoop fuel' from to (page + 1) out
  end.

(** Lines 50-71. *)
Definition balancePhase (fuel : nat) : M unit :=
  if epoch_truthy (startEpoch cfg) || epoch_truthy (endEpoch cfg) then
    let from := epoch_or (startEpoch cfg) 0 in
    let to := epoch_or (endEpoch cfg) (now cfg) in
    emit (SetStatus StFetchingBalanceChanges) ;;
    balanceLoop fuel from to 1 [] ;;
    emit (SetStatus StFetchingTransactions)
  else ret tt.

(** Lines 74-94: the [for await] over [iterTransactions(address, apiKey, 50)]. *)
Fixpoint txLoop (fuel : nat) (g : gen) (out2 : list Row) : M (list Row) :=
  match fuel with
  | O => pending
  | S fuel' =>
      nx <- gen_next net (address cfg) (apiKey cfg) 50 g ;;
      match nx with
      | None => ret out2
      | Some page =>
          new <- push_tx page ;;
          let out2 := date_filter (startEpoch cfg) (endEpoch cfg) (out2 ++ new) in
          emit (SetRows out2) ;;
          emit (SetStatus (StFetched (len out2))) ;;
          emit (SetProgress (tx_progress (len out2))) ;;
          if maxRows cfg <=? len out2 then ret out2
          else
            sleep 120 ;;
            txLoop fuel' (GenSuspended page) out2
      end
  end.

(** Lines 41-96, the body of the [try]. *)
Definition fetchAll_body (fuel : nat) : M unit :=
  if (apiKey cfg =? "")%string then throw ErrNoApiKey
  else if (address cfg =? "")%string then throw ErrNoAddress
  else
    emit (SetLoading true) ;;
    emit (SetStatus StFetchingAccount) ;;
    emit (SetProgress 5) ;;
    emit (SetRows []) ;;
    detail <- getAccountDetail net (address cfg) (apiKey cfg) ;;
    emit (SetAcct (js_or (opt_get detail "data") VNull)) ;;
    balancePhase fuel ;;
    txLoop fuel GenStart [] ;;
    emit (SetStatus StDone) ;;
    emit (SetProgress 100).

(** Lines 39-102. *)
Definition fetchAll (fuel : nat) : M unit :=
  try_catch_finally (fetchAll_body fuel)
    (fun e => emit (SetStatus (StFailed e)))
    (emit (SetLoading false)).

End Controller.

(** A run of [fetchAll] from the first request: its trace and its end. *)
Definition trace_of {A} (r : list event * nat * outcome A) : list event := fst (fst r).
Definition outcome_of {A} (r : list event * nat * outcome A) : outcome A := snd r.

Definition run {rt : Runtime} (cfg : Config) (net : Network) (fuel : nat) : list event * nat * outcome unit :=
  fetchAll cfg net fuel 0%nat.

(** ** Observations on a trace *)

(** The progress values and the row sets reported, in order. *)
Definition progress_values (tr : list event) : list Z :=
  flat_map (fun e => match e with SetProgress p => [p] | _ => [] end) tr.

Definition rows_reports (tr : list event) : list (list Row) :=
  flat_map (fun e => match e with SetRows rs => [rs] | _ => [] end) tr.

Definition is_request (e : event) : bool :=
  match e with Net _ _ => true | _ => false end.

Definition is_tx_request (e : event) : bool :=
  match e with Net (ReqTx _ _ _ _) _ => true | _ => false end.

(** The entries of the balance-change pages and of the transaction pages
    received during a run. *)
Definition balance_list (body : value) : value :=
  js_or (opt_get (opt_get body "data") "list") (VArr []).

Definition tx_list (body : value) : value :=
  js_or (opt_get body "data") (VArr []).

Definition elems_or_nil (lst : value) : list value :=
  match iter_elems lst with Some elts => elts | None => [] end.

Definition balance_elems (tr : list event) : list value :=
  flat_map (fun e => match e with
                     | Net (ReqBalance _ _ _ _ _ _) (HttpOk body) =>
                         match balance_list body with VArr elts => elts | _ => [] end
                     | _ => []
                     end) tr.

Definition tx_elems (tr : list event) : list value :=
  flat_map (fun e => match e with
                     | Net (ReqTx _ _ _ _) (HttpOk body) => elems_or_nil (tx_list body)
                     | _ => []
                     end) tr.

(** A monitor for "no transaction page is requested once the crawl has
    reported a row set that reached the cap".  [crawling] is set by the
    first transaction-page request, [capped] by a report of the crawl that
    reached [cap], [violated] by a transaction-page request issued while
    [capped]. *)
Record monitor : Type := mkMonitor {
  crawling : bool;
  capped : bool;
  violated : bool
}.

Definition monitor_step (cap : Z) (m : monitor) (e : event) : monitor :=
  match e with
  | Net (ReqTx _ _ _ _) _ => mkMonitor true (capped m) (violated m || capped m)
  | SetRows rs =>
      mkMonitor (crawling m) (capped m || (crawling m && (cap <=? Z.of_nat (List.length rs)))) (violated m)
  | _ => m
  end.

Definition monitor_run (cap : Z) (m : monitor) (tr : list event) : monitor :=
  fold_left (monitor_step cap) tr m.

(** The same monitor for the specification's reading, where a report of
    either phase that reached the cap forbids later transaction pages. *)
Definition monitor_step_any_phase (cap : Z) (m : monitor) (e : event) : monitor :=
  match e with
  | Net (ReqTx _ _ _ _) _ => mkMonitor true (capped m) (violated m || capped m)
  | SetRows rs =>
      mkMonitor (crawling m) (capped m || (cap <=? Z.of_nat (List.length rs))) (violated m)
  | _ => m
  end.

(** ** The specification's reading of the normaliser and of the filter *)

(** The first alias that is a property of the object, whatever its value. *)
Fixpoint first_present (aliases : list string) (fields : list (string * value)) : option value :=
  match aliases with
  | [] => None
  | a :: rest =>
      match lookup a fields with
      | Some v => Some v
      | None => first_present rest fields
      end
  end.

(** The first alias whose value is truthy. *)
Fixpoint first_truthy (aliases : list string) (t : value) : option value :=
  match aliases with
  | [] => None
  | a :: rest => if truthy (get_prop t a) then Some (get_prop t a) else first_truthy rest t
  end.

Definition or_default (o : option value) (d : value) : value :=
  match o with Some v => v | None => d end.

(** A row whose time stamp is an integer or is absent. *)
Definition ts_value (t : option Z) : value :=
  match t with Some n => VNum n | None => VUndefined end.

(** "Strictly outside [start, end]", an absent bound being no bound. *)
Definition strictly_outside (startEpoch endEpoch : option Z) (t : Z) : Prop :=
  (exists s, startEpoch = Some s /\ t < s) \/ (exists e, endEpoch = Some e /\ e < t).

(** The same with a bound of [0] being no bound either. *)
Definition outside_active (startEpoch endEpoch : option Z) (t : Z) : Prop :=
  (exists s, startEpoch = Some s /\ s <> 0 /\ t < s) \/
  (exists e, endEpoch = Some e /\ e <> 0 /\ e < t).

(** What the two filters of lines 86-87 keep, as one predicate. *)
Definition keeps {rt : Runtime} (startEpoch endEpoch : option Z) (r : Row) : bool :=
  (if epoch_truthy startEpoch then keep_start (epoch_or startEpoch 0) r else true)
  && (if epoch_truthy endEpoch then keep_end (epoch_or endEpoch 0) r else true).

(** The date filter removes a row with an integer time stamp exactly when
    the stamp is not [0] and lies outside an active bound. *)
Definition removed_by (startEpoch endEpoch : option Z) (t : option Z) : Prop :=
  exists n, t = Some n /\ n <> 0 /\ outside_active startEpoch endEpoch n.

(** The logical time stamp of a source object is [0]: one of the aliases
    holds [0] and none holds anything else. *)
Definition source_ts_zero (aliases : list string) (t : value) : Prop :=
  (exists a, In a aliases /\ get_prop t a = VNum 0) /\
  (forall a, In a aliases -> get_prop t a = VNum 0 \/ get_prop t a = VUndefined).

(** The aliases each normaliser reads, in the order it reads them. *)
Definition tx_ts_aliases : list string := ["blockTime"; "blockTimeUnix"; "block_time"].
Definition tx_sig_aliases : list string := ["txHash"; "txhash"].
Definition tx_fee_aliases : list string := ["fee"; "feeLamports"].
Definition tx_err_aliases : list string := ["err"; "error"].
Definition balance_ts_aliases : list string := ["block_time"; "blockTime"; "ts"].
Definition balance_sig_aliases : list string := ["tx_hash"; "txHash"].

Definition without_ts (r : Row) : Row :=
  mkRow VUndefined (signature r) (slot r) (fee r) (err r).

(** ** Concrete runs *)

(** A runtime for the concrete runs: no coercion succeeds and the dates
    are printed as the empty string. *)
Definition plain_runtime : Runtime :=
  {| coerceToNumber := fun _ => None;
     indexLast := fun _ => VUndefined;
     toISODate := fun _ => "";
     toISO := fun _ => "";
     toUTCISO := fun _ => "" |}.

Definition bal_entry (ts : Z) (h : string) : value :=
  VObj [("block_time", VNum ts); ("tx_hash", VStr h)].

Definition tx_entry (ts : Z) (h : string) : value :=
  VObj [("blockTime", VNum ts); ("txHash", VStr h)].

Definition bal_body (entries : list value) : value :=
  VObj [("data", VObj [("list", VArr entries)])].

Definition tx_body (entries : list value) : value :=
  VObj [("data", VArr entries)].

Definition row_of (ts : Z) (h : string) : Row :=
  mkRow (VNum ts) (VStr h) VNull (VNum 0) VNull.

(** Dates given, cap 20000.  One balance-change page holding transaction
    [A], then an empty one; one transaction page holding [A] again, then
    an empty one. *)
Definition cfg_dates : Config :=
  mkConfig "key" "addr" (Some 1) None 20000 2000.

Definition net_shared : Network := fun _ req =>
  match req with
  | ReqDetail _ _ => HttpOk (VObj [])
  | ReqBalance _ _ _ _ page _ =>
      if page =? 1 then HttpOk (bal_body [bal_entry 100 "A"]) else HttpOk (bal_body [])
  | ReqTx _ _ _ VUndefined => HttpOk (tx_body [tx_entry 100 "A"])
  | ReqTx _ _ _ _ => HttpOk (tx_body [])
  end.

(** Dates given, cap 1: the single balance-change page already reaches
    the cap. *)
Definition cfg_cap1 : Config :=
  mkConfig "key" "addr" (Some 1) None 1 2000.


(** Dates given, cap 20000.  Ten balance-change pages of one entry, the
    eleventh empty; then one transaction page of one entry without hash. *)
Definition net_eleven : Network := fun _ req =>
  match req with
  | ReqDetail _ _ => HttpOk (VObj [])
  | ReqBalance _ _ _ _ page _ =>
      if page <=? 10 then HttpOk (bal_body [bal_entry 100 "B"]) else HttpOk (bal_body [])
  | ReqTx _ _ _ _ => HttpOk (tx_body [VObj [("blockTime", VNum 100)]])
  end.

(** No dates: the crawl alone, three pages of two entries, then the end. *)
Definition cfg_nodates (cap : Z) : Config :=
  mkConfig "key" "addr" None None cap 2000.

Definition net_pages : Network := fun n req =>
  match req with
  | ReqDetail _ _ => HttpOk (VObj [("data", VObj [("lamports", VNum 5)])])
  | ReqBalance _ _ _ _ _ _ => HttpOk (bal_body [])
  | ReqTx _ _ _ _ =>
      if (n <=? 3)%nat then HttpOk (tx_body [tx_entry 300 "P"; tx_entry 200 "Q"])
      else HttpOk (tx_body [])
  end.

(** The transaction endpoint answers 500 on the second page. *)
Definition net_fails : Network := fun n req =>
  match req with
  | ReqDetail _ _ => HttpOk (VObj [])
  | ReqBalance _ _ _ _ _ _ => HttpOk (bal_body [])
  | ReqTx _ _ _ VUndefined => HttpOk (tx_body [tx_entry 300 "P"])
  | ReqTx _ _ _ _ => HttpNotOk 500
  end.

(** The state a run leaves, from the state [st] it was started in. *)
Definition final_state {A} (st : State) (r : list event * nat * outcome A) : State :=
  replay st (trace_of r).

(** ** The loops as step relations

    The runs of the generator and of the two loops, one constructor for
    each way a turn of the loop can go.  [balanceLoop], [gen_next] and
    [txLoop] are shown below to produce only such runs. *)

Section Runs.
Context {rt : Runtime}.
Variable cfg : Config.
Variable net : Network.

Definition tx_request (beforeHash : value) : request :=
  ReqTx (address cfg) (apiKey cfg) 50 beforeHash.

(** The cursor the generator sends when resumed in state [g]. *)
Inductive cursor : gen -> value -> Prop :=
| cursor_start : cursor GenStart VUndefined
| cursor_next lst :
    truthy (opt_get (last_elem lst) "txHash") = true ->
    cursor (GenSuspended lst) (opt_get (last_elem lst) "txHash").

Inductive next_run (g : gen) (n : nat) : list event -> nat -> outcome (option value) -> Prop :=
| next_no_cursor lst :
    g = GenSuspended lst ->
    truthy (opt_get (last_elem lst) "txHash") = false ->
    next_run g n [] n (Ok None)
| next_rejected h msg :
    cursor g h -> net n (tx_request h) = Rejected msg ->
    next_run g n [Net (tx_request h) (Rejected msg)] (S n) (Throw (ErrRejected msg))
| next_not_ok h st :
    cursor g h -> net n (tx_request h) = HttpNotOk st ->
    next_run g n [Net (tx_request h) (HttpNotOk st)] (S n) (Throw (ErrTransactions st))
| next_empty h body :
    cursor g h -> net n (tx_request h) = HttpOk body ->
    truthy (get_prop (tx_list body) "length") = false ->
    next_run g n [Net (tx_request h) (HttpOk body)] (S n) (Ok None)
| next_yield h body :
    cursor g h -> net n (tx_request h) = HttpOk body ->
    truthy (get_prop (tx_list body) "length") = true ->
    next_run g n [Net (tx_request h) (HttpOk body)] (S n) (Ok (Some (tx_list body))).

(** What the crawl reports after a batch. *)
Definition tx_reports (out2 : list Row) : list event :=
  [SetRows out2; SetStatus (StFetched (len out2)); SetProgress (tx_progress cfg (len out2))].

Definition filtered (out2 new : list Row) : list Row :=
  date_filter (startEpoch cfg) (endEpoch cfg) (out2 ++ new).

Inductive tx_run : gen -> list Row -> nat -> list event -> nat -> outcome (list Row) -> Prop :=
| tx_pending g out2 n :
    tx_run g out2 n [] n Pending
| tx_exhausted g out2 n t1 n1 :
    next_run g n t1 n1 (Ok None) ->
    tx_run g out2 n t1 n1 (Ok out2)
| tx_failed g out2 n t1 n1 e :
    next_run g n t1 n1 (Throw e) ->
    tx_run g out2 n t1 n1 (Throw e)
| tx_type_error g out2 n t1 n1 page :
    next_run g n t1 n1 (Ok (Some page)) ->
    tx_rows page = None ->
    tx_run g out2 n t1 n1 (Throw ErrTypeError)
| tx_break g out2 n t1 n1 page new :
    next_run g n t1 n1 (Ok (Some page)) ->
    tx_rows page = Some new ->
    maxRows cfg <= len (filtered out2 new) ->
    tx_run g out2 n (t1 ++ tx_reports (filtered out2 new)) n1 (Ok (filtered out2 new))
| tx_continue g out2 n t1 n1 page new t2 n2 r :
    next_run g n t1 n1 (Ok (Some page)) ->
    tx_rows page = Some new ->
    len (filtered out2 new) < maxRows cfg ->
    tx_run (GenSuspended page) (filtered out2 new) n1 t2 n2 r ->
    tx_run g out2 n (t1 ++ tx_reports (filtered out2 new) ++ Sleep 120 :: t2) n2 r.

Section Balance.
Variables from to : Z.

Definition balance_request (page : Z) : request :=
  ReqBalance (address cfg) (apiKey cfg) from to page 100.

Definition balance_reports (page : Z) (out : list Row) : list event :=
  [SetRows out; SetProgress (Z.min 80 (20 + page * 4))].

Inductive balance_run : Z -> list Row -> nat -> list event -> nat -> outcome (list Row) -> Prop :=
| balance_pending page out n :
    balance_run page out n [] n Pending
| balance_rejected page out n msg :
    net n (balance_request page) = Rejected msg ->
    balance_run page out n [Net (balance_request page) (Rejected msg)] (S n)
      (Throw (ErrRejected msg))
| balance_not_ok page out n st :
    net n (balance_request page) = HttpNotOk st ->
    balance_run page out n [Net (balance_request page) (HttpNotOk st)] (S n)
      (Throw (ErrBalanceChanges st))
| balance_type_error page out n body :
    net n (balance_request page) = HttpOk body ->
    balance_rows (balance_list body) = None ->
    balance_run page out n [Net (balance_request page) (HttpOk body)] (S n)
      (Throw ErrTypeError)
| balance_break page out n body new :
    net n (balance_request page) = HttpOk body ->
    balance_rows (balance_list body) = Some new ->
    new = [] \/ maxRows cfg <= len (out ++ new) ->
    balance_run page out n
      (Net (balance_request page) (HttpOk body) :: balance_reports page (out ++ new)) (S n)
      (Ok (out ++ new))
| balance_continue page out n body new t2 n2 r :
    net n (balance_request page) = HttpOk body ->
    balance_rows (balance_list body) = Some new ->
    new <> [] ->
    len (out ++ new) < maxRows cfg ->
    balance_run (page + 1) (out ++ new) (S n) t2 n2 r ->
    balance_run page out n
      (Net (balance_request page) (HttpOk body)
         :: balance_reports page (out ++ new) ++ Sleep 120 :: t2) n2 r.

End Balance.


(** How an invocation of [fetchAll] ended: [try] block run to its end,
    [catch] entered with [e], or still running when the fuel ran out. *)
Inductive ending : Type :=
| Completed
| Failed (e : exn)
| Running.

(** Lines 43, 96 and 97-101. *)
Definition prologue : list event :=
  [SetLoading true; SetStatus StFetchingAccount; SetProgress 5; SetRows []].

Definition success : list event :=
  [SetStatus StDone; SetProgress 100; SetLoading false].

Definition failure (e : exn) : list event :=
  [SetStatus (StFailed e); SetLoading false].

Definition detail_request : request := ReqDetail (address cfg) (apiKey cfg).

Definition dates_given : bool :=
  epoch_truthy (startEpoch cfg) || epoch_truthy (endEpoch cfg).

(** Lines 50-71. *)
Inductive phase_run (n : nat) : list event -> nat -> outcome unit -> Prop :=
| phase_skipped :
    dates_given = false ->
    phase_run n [] n (Ok tt)
| phase_done t n1 out :
    dates_given = true ->
    balance_run (epoch_or (startEpoch cfg) 0) (epoch_or (endEpoch cfg) (now cfg))
      1 [] n t n1 (Ok out) ->
    phase_run n (SetStatus StFetchingBalanceChanges :: t ++ [SetStatus StFetchingTransactions])
      n1 (Ok tt)
| phase_failed t n1 e :
    dates_given = true ->
    balance_run (epoch_or (startEpoch cfg) 0) (epoch_or (endEpoch cfg) (now cfg))
      1 [] n t n1 (Throw e) ->
    phase_run n (SetStatus StFetchingBalanceChanges :: t) n1 (Throw e)
| phase_pending t n1 :
    dates_given = true ->
    balance_run (epoch_or (startEpoch cfg) 0) (epoch_or (endEpoch cfg) (now cfg))
      1 [] n t n1 Pending ->
    phase_run n (SetStatus StFetchingBalanceChanges :: t) n1 Pending.

Definition acct_of (detail : value) : value := js_or (opt_get detail "data") VNull.

Definition valid : Prop := apiKey cfg <> "" /\ address cfg <> "".

Inductive fetch_run : list event -> ending -> Prop :=
| fetch_no_key :
    apiKey cfg = "" ->
    fetch_run (failure ErrNoApiKey) (Failed ErrNoApiKey)
| fetch_no_address :
    apiKey cfg <> "" -> address cfg = "" ->
    fetch_run (failure ErrNoAddress) (Failed ErrNoAddress)
| fetch_detail_rejected msg :
    valid -> net 0%nat detail_request = Rejected msg ->
    fetch_run (prologue ++ Net detail_request (Rejected msg) :: failure (ErrRejected msg))
      (Failed (ErrRejected msg))
| fetch_detail_not_ok st :
    valid -> net 0%nat detail_request = HttpNotOk st ->
    fetch_run (prologue ++ Net detail_request (HttpNotOk st) :: failure (ErrAccountDetail st))
      (Failed (ErrAccountDetail st))
| fetch_balance_failed detail bt n1 e :
    valid -> net 0%nat detail_request = HttpOk detail ->
    phase_run 1%nat bt n1 (Throw e) ->
    fetch_run (prologue ++ Net detail_request (HttpOk detail) :: SetAcct (acct_of detail)
                 :: bt ++ failure e)
      (Failed e)
| fetch_balance_pending detail bt n1 :
    valid -> net 0%nat detail_request = HttpOk detail ->
    phase_run 1%nat bt n1 Pending ->
    fetch_run (prologue ++ Net detail_request (HttpOk detail) :: SetAcct (acct_of detail) :: bt)
      Running
| fetch_crawl_done detail bt n1 ct n2 out2 :
    valid -> net 0%nat detail_request = HttpOk detail ->
    phase_run 1%nat bt n1 (Ok tt) ->
    tx_run GenStart [] n1 ct n2 (Ok out2) ->
    fetch_run (prologue ++ Net detail_request (HttpOk detail) :: SetAcct (acct_of detail)
                 :: bt ++ ct ++ success)
      Completed
| fetch_crawl_failed detail bt n1 ct n2 e :
    valid -> net 0%nat detail_request = HttpOk detail ->
    phase_run 1%nat bt n1 (Ok tt) ->
    tx_run GenStart [] n1 ct n2 (Throw e) ->
    fetch_run (prologue ++ Net detail_request (HttpOk detail) :: SetAcct (acct_of detail)
                 :: bt ++ ct ++ failure e)
      (Failed e)
| fetch_crawl_pending detail bt n1 ct n2 :
    valid -> net 0%nat detail_request = HttpOk detail ->
    phase_run 1%nat bt n1 (Ok tt) ->
    tx_run GenStart [] n1 ct n2 Pending ->
    fetch_run (prologue ++ Net detail_request (HttpOk detail) :: SetAcct (acct_of detail)
                 :: bt ++ ct)
      Running.

End Runs.

(** The events each part of [fetchAll] can emit. *)
Definition balance_event (e : event) : Prop :=
  match e with
  | Net (ReqBalance _ _ _ _ _ _) _ | SetRows _ | Sleep _ => True
  | SetProgress p => p <= 80
  | _ => False
  end.

Definition tx_event (e : event) : Prop :=
  match e with
  | Net (ReqTx _ _ _ _) _ | SetRows _ | Sleep _ | SetStatus (StFetched _) => True
  | SetProgress p => p <= 95
  | _ => False
  end.

(** A status that is neither [Idle], [Done] nor a failure. *)
Definition working (s : status_t) : Prop :=
  match s with
  | StFetchingAccount | StFetchingBalanceChanges | StFetchingTransactions | StFetched _ => True
  | _ => False
  end.

(** An event of the inside of the [try] block: it sets no final status and
    reports no progress above 95. *)
Definition inner_event (e : event) : Prop :=
  match e with
  | SetStatus s => working s
  | SetProgress p => p <= 95
  | _ => True
  end.

Definition succeeded (st : State) : Prop := status st = StDone.

Definition failed_with (e : exn) (st : State) : Prop := status st = StFailed e.

(** How the [try] block of [fetchAll] ended, and what [catch] and
    [finally] (lines 97-101) emit after it. *)
Definition ending_of {A} (r : outcome A) : ending :=
  match r with
  | Ok _ => Completed
  | Throw e => Failed e
  | Pending => Running
  end.

Definition handler_events {A} (r : outcome A) : list event :=
  match r with
  | Ok _ => [SetLoading false]
  | Throw e => failure e
  | Pending => []
  end.

(** ** Further observations

    The requests of a trace, the exchanges with the transaction endpoint,
    and the two counters of App.jsx, lines 119-120. *)

Definition requests_of (tr : list event) : list request :=
  flat_map (fun e => match e with Net req _ => [req] | _ => [] end) tr.

(** The cursor sent with each transaction-page request and its answer. *)
Definition tx_exchanges (tr : list event) : list (value * http_result) :=
  flat_map (fun e => match e with
                     | Net (ReqTx _ _ _ h) res => [(h, res)]
                     | _ => []
                     end) tr.

(** The parsed [data] of each successful transaction-page answer. *)
Definition tx_lists (tr : list event) : list value :=
  flat_map (fun e => match e with
                     | Net (ReqTx _ _ _ _) (HttpOk body) => [tx_list body]
                     | _ => []
                     end) tr.

Definition nonempty (lst : value) : bool := truthy (get_prop lst "length").

(** The error a failed exchange raises (solscan.js, lines 8, 17, 34). *)
Definition error_of (req : request) (res : http_result) : option exn :=
  match res with
  | Rejected msg => Some (ErrRejected msg)
  | HttpNotOk st =>
      Some (match req with
            | ReqDetail _ _ => ErrAccountDetail st
            | ReqBalance _ _ _ _ _ _ => ErrBalanceChanges st
            | ReqTx _ _ _ _ => ErrTransactions st
            end)
  | HttpOk _ => None
  end.

(** The first failed exchange of a trace, with its error and the events
    that follow it. *)
Fixpoint first_failure (tr : list event) : option (exn * list event) :=
  match tr with
  | [] => None
  | Net req res :: rest =>
      match error_of req res with
      | Some e => Some (e, rest)
      | None => first_failure rest
      end
  | _ :: rest => first_failure rest
  end.

(** What a loop leaves after its first failed exchange: nothing, and it
    has thrown the error of that exchange. *)
Definition stops_at_failure {A} (t : list event) (r : outcome A) : Prop :=
  first_failure t = None \/ exists e, first_failure t = Some (e, []) /\ r = Throw e.

(** The cursors of successive transaction-page requests: each one is the
    cursor the generator derives from the page received before. *)
Inductive chain {rt : Runtime} : gen -> list (value * http_result) -> Prop :=
| chain_nil g : chain g []
| chain_cons g h res rest :
    cursor g h ->
    (forall body, res = HttpOk body ->
                  (rest <> [] -> nonempty (tx_list body) = true) /\
                  chain (GenSuspended (tx_list body)) rest) ->
    ((forall body, res <> HttpOk body) -> rest = []) ->
    chain g ((h, res) :: rest).

(** The events between the account-detail exchange and the end of a fetch:
    they do not touch [loading] or [acct], set a working status only, and
    report a progress from 24 to 95. *)
Definition inside_event (e : event) : Prop :=
  match e with
  | SetLoading _ | SetAcct _ => False
  | SetStatus s => working s
  | SetProgress p => 24 <= p <= 95
  | _ => True
  end.

Definition acct_events (res : http_result) : list event :=
  match res with
  | HttpOk detail => [SetAcct (js_or (opt_get detail "data") VNull)]
  | _ => []
  end.

Definition ending_events (en : ending) : list event :=
  match en with
  | Completed => [SetStatus StDone; SetProgress 100; SetLoading false]
  | Failed e => [SetStatus (StFailed e); SetLoading false]
  | Running => []
  end.

(** Two states that differ at most by the account summary. *)
Definition same_but_acct (s s' : State) : Prop :=
  status s = status s' /\ loading s = loading s' /\
  progress s = progress s' /\ rows s = rows s'.

(** [b] is [a] with rows appended. *)
Definition extends (a b : list Row) : Prop := exists extra, b = a ++ extra.

(** A row the chart cannot date: its time stamp is truthy and is not a
    number, which [DateTime.fromSeconds] rejects. *)
Definition bad_timestamp (r : Row) : bool :=
  truthy (blockTime r) && match blockTime r with VNum _ => false | _ => true end.

(** A row luxon can date whatever the zone: its time stamp, when a
    number, is within the range of [Date] less a day.  Outside this
    range [toISODate] returns [null], which becomes a key of the map that
    the comparator of line 19 cannot order. *)
Definition datable (r : Row) : bool :=
  match blockTime r with
  | VNum n => (-8639999913600 <=? n) && (n <=? 8639999913600)
  | _ => true
  end.

(** A row of day [d]. *)
Definition dated {rt : Runtime} (d : string) (r : Row) : bool :=
  match blockTime r with
  | VNum n => negb (n =? 0) && (toISODate n =? d)%string
  | _ => false
  end.

Definition occurrences {rt : Runtime} (d : string) (rows : list Row) : Z :=
  Z.of_nat (List.length (filter (dated d) rows)).

(** [m.get(d) || 0]. *)
Definition count_of (d : string) (m : list (string * Z)) : Z :=
  match find (fun e => (fst e =? d)%string) m with
  | Some e => snd e
  | None => 0
  end.

(** Dates in strictly ascending order, each next to the following one. *)
Definition by_date (a b : string * Z) : Prop := String.ltb (fst a) (fst b) = true.

(** [rows.filter(r=>r.err).length], line 120. *)
Definition failed (rows : list Row) : Z := len (filter (fun r => truthy (err r)) rows).

(** * Properties *)

(** ** Lists *)

Lemma filter_idem {A} (f : A -> bool) (l : list A) :
  filter f (filter f l) = filter f l.
Proof.
  induction l as [|a l IH]; simpl; [reflexivity|].
  destruct (f a) eqn:E; simpl; [rewrite E, IH|]; auto.
Qed.

Lemma filter_and {A} (f g : A -> bool) (l : list A) :
  filter g (filter f l) = filter (fun x => f x && g x) l.
Proof.
  induction l as [|a l IH]; simpl; [reflexivity|].
  destruct (f a); simpl; [destruct (g a)|]; rewrite IH; reflexivity.
Qed.

Lemma filter_true {A} (l : list A) : filter (fun _ => true) l = l.
Proof. induction l; simpl; congruence. Qed.

(** ** The date filter *)

Section FilterFacts.
Context {rt : Runtime}.
Variables startEpoch endEpoch : option Z.

Lemma date_filter_keeps (l : list Row) :
  date_filter startEpoch endEpoch l = filter (keeps startEpoch endEpoch) l.
Proof.
  unfold date_filter, filter_end, filter_start, keeps.
  destruct (epoch_truthy startEpoch), (epoch_truthy endEpoch).
  - apply filter_and.
  - apply filter_ext. intros r. now rewrite andb_true_r.
  - reflexivity.
  - simpl. now rewrite filter_true.
Qed.

Lemma date_filter_app (l1 l2 : list Row) :
  date_filter startEpoch endEpoch (l1 ++ l2)
  = date_filter startEpoch endEpoch l1 ++ date_filter startEpoch endEpoch l2.
Proof. rewrite !date_filter_keeps. apply filter_app. Qed.

Lemma date_filter_fixed (l : list Row) :
  date_filter startEpoch endEpoch (date_filter startEpoch endEpoch l)
  = date_filter startEpoch endEpoch l.
Proof. rewrite !date_filter_keeps. apply filter_idem. Qed.


Lemma keeps_falsy (r : Row) :
  truthy (blockTime r) = false -> keeps startEpoch endEpoch r = true.
Proof.
  intros H. unfold keeps, keep_start, keep_end. rewrite H. simpl.
  destruct (epoch_truthy startEpoch), (epoch_truthy endEpoch); reflexivity.
Qed.

Lemma keeps_number (n : Z) sg sl fe er :
  keeps startEpoch endEpoch (mkRow (VNum n) sg sl fe er) = true
  <-> (n = 0 \/ ~ outside_active startEpoch endEpoch n).
Proof.
  unfold keeps, keep_start, keep_end, js_ge, js_le, outside_active, epoch_truthy, epoch_or.
  simpl.
  destruct (Z.eqb_spec n 0) as [->|Hn]; simpl.
  - split; [now left|].
    destruct startEpoch as [s|], endEpoch as [e|]; simpl;
      repeat match goal with |- context [?a =? 0] => destruct (a =? 0) end; reflexivity.
  - split.
    + intros H. right. intros [(s & Hs & Hs0 & Hlt)|(e & He & He0 & Hlt)].
      * rewrite Hs in H. destruct (Z.eqb_spec s 0); [contradiction|]. simpl in H.
        apply andb_true_iff in H. destruct H as [H _]. apply Z.leb_le in H. lia.
      * rewrite He in H. destruct (Z.eqb_spec e 0); [contradiction|]. simpl in H.
        apply andb_true_iff in H. destruct H as [_ H]. apply Z.leb_le in H. lia.
    + intros [H0|H]; [contradiction|].
      apply andb_true_iff. split.
      * destruct startEpoch as [s|]; [|reflexivity].
        destruct (Z.eqb_spec s 0); [reflexivity|]. simpl.
        apply Z.leb_le. destruct (Z_lt_le_dec n s); [|assumption].
        exfalso. apply H. left. exists s. auto.
      * destruct endEpoch as [e|]; [|reflexivity].
        destruct (Z.eqb_spec e 0); [reflexivity|]. simpl.
        apply Z.leb_le. destruct (Z_lt_le_dec e n); [|assumption].
        exfalso. apply H. right. exists e. auto.
Qed.

End FilterFacts.

(** C9. Applying the client-side date filter to an already filtered set
    of rows gives the same set: the filter is idempotent, for every pair
    of optional bounds. *)
Theorem date_filter_idempotent {rt : Runtime} (startEpoch endEpoch : option Z) (l : list Row) :
  date_filter startEpoch endEpoch (date_filter startEpoch endEpoch l)
  = date_filter startEpoch endEpoch l.
Proof. apply date_filter_fixed. Qed.

(** C5, as stated, fails: a row whose time stamp is present and equal to
    [0] lies strictly below the start bound [100] and is not removed. *)
Lemma date_filter_keeps_zero_below_start :
  strictly_outside (Some 100) None 0 /\
  blockTime (row_of 0 "A") = ts_value (Some 0) /\
  @date_filter plain_runtime (Some 100) None [row_of 0 "A"] = [row_of 0 "A"].
Proof.
  split; [|split; reflexivity].
  left. exists 100. split; [reflexivity|lia].
Qed.

(** C5, amended. A row whose time stamp is an integer or absent survives
    the date filter exactly when it is not removed, and it is removed
    exactly when its time stamp is a non-zero integer lying strictly
    outside a bound that is present and not [0]; a row without time stamp
    is never removed. *)
Theorem date_filter_removes_iff {rt : Runtime} (startEpoch endEpoch : option Z)
    (t : option Z) (sg sl fe er : value) (l : list Row) :
  (In (mkRow (ts_value t) sg sl fe er) (date_filter startEpoch endEpoch l)
   <-> In (mkRow (ts_value t) sg sl fe er) l /\ ~ removed_by startEpoch endEpoch t)
  /\ date_filter startEpoch endEpoch [mkRow VUndefined sg sl fe er] = [mkRow VUndefined sg sl fe er].
Proof.
  split.
  - rewrite date_filter_keeps, filter_In.
    assert (K : keeps startEpoch endEpoch (mkRow (ts_value t) sg sl fe er) = true
                <-> ~ removed_by startEpoch endEpoch t).
    { destruct t as [n|]; simpl.
      - rewrite keeps_number. unfold removed_by. split.
        + intros [H0|H] (n' & Heq & Hn & Hout); injection Heq as <-; auto.
        + intros H. destruct (Z.eq_dec n 0) as [|Hn]; [now left|right].
          intros Hout. apply H. exists n. auto.
      - split; [|intros _; now apply keeps_falsy].
        intros _ (n & Heq & _). discriminate. }
    tauto.
  - rewrite date_filter_keeps. simpl.
    now rewrite (keeps_falsy startEpoch endEpoch (mkRow VUndefined sg sl fe er)).
Qed.

(** ** Rows whose time stamp is falsy *)

Section FalsyTimestamp.
Context {rt : Runtime}.

Lemma group_step_falsy (m : list (string * Z)) (r : Row) :
  truthy (blockTime r) = false -> group_step m r = Some m.
Proof. intros H. unfold group_step, js_or. rewrite H. reflexivity. Qed.

Lemma group_loop_skip (r : Row) (pre post : list Row) :
  truthy (blockTime r) = false ->
  forall m, group_loop m (pre ++ r :: post) = group_loop m (pre ++ post).
Proof.
  intros H. induction pre as [|a pre IH]; intros m; simpl.
  - now rewrite group_step_falsy.
  - destruct (group_step m a); [apply IH|reflexivity].
Qed.

Lemma falsy_ts_interfaces (r : Row) :
  truthy (blockTime r) = false ->
  (forall s e pre post,
      date_filter s e (pre ++ r :: post) = date_filter s e pre ++ r :: date_filter s e post) /\
  (forall pre post, groupByDate (pre ++ r :: post) = groupByDate (pre ++ post)) /\
  exportCSV_time_iso r = Some "" /\
  render_time r = Some "".
Proof.
  intros H. repeat split.
  - intros s e pre post. rewrite !date_filter_keeps, filter_app. simpl.
    now rewrite keeps_falsy.
  - intros pre post. unfold groupByDate. now rewrite group_loop_skip.
  - unfold exportCSV_time_iso. now rewrite H.
  - unfold render_time. now rewrite H.
Qed.

End FalsyTimestamp.

Lemma source_ts_zero_get (aliases : list string) (t : value) (a : string) :
  source_ts_zero aliases t -> In a aliases ->
  get_prop t a = VNum 0 \/ get_prop t a = VUndefined.
Proof. intros [_ H]. apply H. Qed.

Lemma normalizeTx_ts_zero (t : value) :
  source_ts_zero tx_ts_aliases t -> truthy (blockTime (normalizeTx t)) = false.
Proof.
  intros H.
  destruct (source_ts_zero_get _ _ "blockTime" H) as [E1|E1]; [simpl; auto| |];
  (destruct (source_ts_zero_get _ _ "blockTimeUnix" H) as [E2|E2]; [simpl; auto| |]);
  (destruct (source_ts_zero_get _ _ "block_time" H) as [E3|E3]; [simpl; auto| |]);
  unfold normalizeTx, js_or; simpl; rewrite E1, E2, E3; reflexivity.
Qed.

Lemma normalizeBalance_ts_zero (t : value) :
  source_ts_zero balance_ts_aliases t -> truthy (blockTime (normalizeBalance t)) = false.
Proof.
  intros H.
  destruct (source_ts_zero_get _ _ "block_time" H) as [E1|E1]; [simpl; auto| |];
  (destruct (source_ts_zero_get _ _ "blockTime" H) as [E2|E2]; [simpl; auto| |]);
  (destruct (source_ts_zero_get _ _ "ts" H) as [E3|E3]; [simpl; auto| |]);
  unfold normalizeBalance, js_or; simpl; rewrite E1, E2, E3; reflexivity.
Qed.

(** C10. A source object whose time stamp is present and equal to [0]
    (under the aliases of either normaliser) gives a row that every
    interface treats as a row without time stamp: the date filter keeps it
    whatever the bounds, the chart grouping skips it, and the export and
    the table print an empty time; the same row with its time stamp
    erased is treated the same way. *)
Theorem zero_timestamp_as_absent {rt : Runtime} (t : value) (r : Row) :
  (source_ts_zero tx_ts_aliases t /\ r = normalizeTx t) \/
  (source_ts_zero balance_ts_aliases t /\ r = normalizeBalance t) ->
  forall r', r' = r \/ r' = without_ts r ->
  (forall s e pre post,
      date_filter s e (pre ++ r' :: post) = date_filter s e pre ++ r' :: date_filter s e post) /\
  (forall pre post, groupByDate (pre ++ r' :: post) = groupByDate (pre ++ post)) /\
  exportCSV_time_iso r' = Some "" /\
  render_time r' = Some "".
Proof.
  intros H r' Hr'. apply falsy_ts_interfaces.
  destruct Hr' as [->| ->]; [|reflexivity].
  destruct H as [[H ->]|[H ->]].
  - now apply normalizeTx_ts_zero.
  - now apply normalizeBalance_ts_zero.
Qed.

Lemma zero_timestamp_as_absent_witness :
  let r := mkRow VUndefined (VStr "A") VNull (VNum 0) VNull in
  (forall s e pre post,
      @date_filter plain_runtime s e (pre ++ r :: post)
      = @date_filter plain_runtime s e pre ++ r :: @date_filter plain_runtime s e post) /\
  (forall pre post,
      @groupByDate plain_runtime (pre ++ r :: post) = @groupByDate plain_runtime (pre ++ post)) /\
  @exportCSV_time_iso plain_runtime r = Some "" /\
  @render_time plain_runtime r = Some "".
Proof.
  intros r.
  apply (@zero_timestamp_as_absent plain_runtime
           (VObj [("blockTime", VNum 0); ("txHash", VStr "A")])
           (normalizeTx (VObj [("blockTime", VNum 0); ("txHash", VStr "A")]))).
  - left. split; [|reflexivity]. split.
    + exists "blockTime". split; [simpl; auto|reflexivity].
    + intros a [<-|[<-|[<-|[]]]]; simpl; auto.
  - left. reflexivity.
Defined.

(** ** The normalisers *)

Lemma js_or_default1 (a d : value) :
  js_or a d = or_default (if truthy a then Some a else None) d.
Proof. unfold js_or. destruct (truthy a); reflexivity. Qed.

Lemma js_or_default2 (a b d : value) :
  js_or (js_or a b) d
  = or_default (if truthy a then Some a else if truthy b then Some b else None) d.
Proof.
  unfold js_or. destruct (truthy a) eqn:Ea; simpl; [now rewrite Ea|].
  destruct (truthy b); reflexivity.
Qed.

Lemma js_or_last2 (a b : value) :
  js_or a b = or_default (if truthy a then Some a else if truthy b then Some b else None) b.
Proof. unfold js_or. destruct (truthy a), (truthy b); reflexivity. Qed.

Lemma js_or_last3 (a b c : value) :
  js_or (js_or a b) c
  = or_default (if truthy a then Some a
                else if truthy b then Some b
                else if truthy c then Some c else None) c.
Proof.
  unfold js_or. destruct (truthy a) eqn:Ea; simpl; [now rewrite Ea|].
  destruct (truthy b); simpl; [reflexivity|].
  destruct (truthy c); reflexivity.
Qed.

Lemma first_present_truthy (aliases : list string) (fields : list (string * value)) (v : value) :
  first_present aliases fields = Some v -> truthy v = true ->
  first_truthy aliases (VObj fields) = Some v.
Proof.
  induction aliases as [|a rest IH]; simpl; [discriminate|].
  destruct (lookup a fields) as [x|] eqn:E.
  - intros [= ->] Hv. now rewrite Hv.
  - simpl. auto.
Qed.

(** C4, as stated, fails: [fee] is present with value [0], yet the row
    takes the fee from the next alias. *)
Lemma normalizeTx_skips_present_falsy_alias :
  let fields := [("txHash", VStr "A"); ("fee", VNum 0); ("feeLamports", VNum 5000)] in
  first_present tx_fee_aliases fields = Some (VNum 0) /\
  fee (normalizeTx (VObj fields)) = VNum 5000.
Proof. split; reflexivity. Qed.

(** C4, amended. Each normaliser fills the five fields of the row; time
    stamp, signature, fee and error take the first truthy value among the
    aliases that normaliser reads, and when none is truthy the value of
    the last alias (time stamp, signature), [0] (fee) or [null] (error);
    the slot of a transaction entry is kept unless it is [null] or
    [undefined], the slot of a balance-change entry unless it is falsy.
    An object with none of the aliases gives the defaults. *)
Theorem normalizers_first_truthy (t : value) :
  normalizeTx t =
    mkRow (or_default (first_truthy tx_ts_aliases t) (get_prop t "block_time"))
          (or_default (first_truthy tx_sig_aliases t) (get_prop t "txhash"))
          (if nullish (get_prop t "slot") then VNull else get_prop t "slot")
          (or_default (first_truthy tx_fee_aliases t) (VNum 0))
          (or_default (first_truthy tx_err_aliases t) VNull)
  /\ normalizeBalance t =
    mkRow (or_default (first_truthy balance_ts_aliases t) (get_prop t "ts"))
          (or_default (first_truthy balance_sig_aliases t) (get_prop t "txHash"))
          (or_default (first_truthy ["slot"] t) VNull)
          (or_default (first_truthy ["fee"] t) (VNum 0))
          (or_default (first_truthy ["err"] t) VNull)
  /\ normalizeTx (VObj []) = mkRow VUndefined VUndefined VNull (VNum 0) VNull
  /\ normalizeBalance (VObj []) = mkRow VUndefined VUndefined VNull (VNum 0) VNull.
Proof.
  repeat split.
  - unfold normalizeTx, js_coalesce. simpl. f_equal.
    + apply js_or_last3.
    + apply js_or_last2.
    + apply js_or_default2.
    + apply js_or_default2.
  - unfold normalizeBalance. simpl. f_equal.
    + apply js_or_last3.
    + apply js_or_last2.
    + apply js_or_default1.
    + apply js_or_default1.
    + apply js_or_default1.
Qed.

(** ** The loops produce only runs of the step relations *)

Section Soundness.
Context {rt : Runtime}.
Variable cfg : Config.
Variable net : Network.

Lemma gen_fetch_sound (g : gen) (h : value) (n : nat) tr n' r :
  cursor g h ->
  gen_fetch net (address cfg) (apiKey cfg) 50 h n = (tr, n', r) ->
  next_run cfg net g n tr n' r.
Proof.
  intros Hc. unfold gen_fetch, bind, http.
  fold (tx_request cfg h).
  destruct (net n (tx_request cfg h)) as [msg|st|body] eqn:E.
  - intros [= <- <- <-]. now apply next_rejected.
  - intros [= <- <- <-]. now apply next_not_ok.
  - fold (tx_list body).
    destruct (truthy (get_prop (tx_list body) "length")) eqn:L; simpl;
      intros [= <- <- <-].
    + now apply next_yield.
    + now apply next_empty.
Qed.

Lemma gen_next_sound (g : gen) (n : nat) tr n' r :
  gen_next net (address cfg) (apiKey cfg) 50 g n = (tr, n', r) ->
  next_run cfg net g n tr n' r.
Proof.
  destruct g as [|lst]; simpl.
  - apply gen_fetch_sound. constructor.
  - destruct (truthy (opt_get (last_elem lst) "txHash")) eqn:E; simpl.
    + apply gen_fetch_sound. now constructor.
    + intros [= <- <- <-]. now apply next_no_cursor with lst.
Qed.

Lemma txLoop_sound (fuel : nat) :
  forall g out2 n tr n' r,
    txLoop cfg net fuel g out2 n = (tr, n', r) -> tx_run cfg net g out2 n tr n' r.
Proof.
  induction fuel as [|fuel IH]; intros g out2 n tr n' r.
  - intros [= <- <- <-]. constructor.
  - simpl. unfold bind at 1.
    destruct (gen_next net (address cfg) (apiKey cfg) 50 g n) as [[t1 n1] [[page|]|e|]] eqn:E;
      apply gen_next_sound in E.
    + unfold push_tx, of_option, bind at 1.
      destruct (tx_rows page) as [new|] eqn:R.
      * cbn [ret]. fold (filtered cfg out2 new).
        destruct (Z.leb_spec (maxRows cfg) (len (filtered cfg out2 new))) as [Hcap|Hcap].
        -- cbn. intros [= <- <- <-].
           rewrite ?app_nil_r. now apply tx_break with page.
        -- unfold sleep, emit, bind.
           destruct (txLoop cfg net fuel (GenSuspended page) (filtered cfg out2 new) n1)
             as [[t2 n2] r2] eqn:E2.
           apply IH in E2.
           intros [= <- <- <-]. cbn [app].
           now apply tx_continue with n1 page.
      * cbn. intros [= <- <- <-]. rewrite ?app_nil_r. now apply tx_type_error with page.
    + cbn. intros [= <- <- <-]. rewrite ?app_nil_r. now apply tx_exhausted.
    + intros [= <- <- <-]. now apply tx_failed.
    + intros [= <- <- <-].
      inversion E.
Qed.

Lemma balance_rows_empty (lst : value) (new : list Row) :
  balance_rows lst = Some new ->
  truthy (get_prop lst "length") = false <-> new = [].
Proof.
  destruct lst as [| | | | |elts|]; try discriminate.
  unfold balance_rows, normalize_all.
  destruct (existsb nullish elts); [discriminate|]. intros [= <-].
  destruct elts; simpl; split; intros H; try reflexivity; discriminate.
Qed.

Lemma balanceLoop_sound (from to : Z) (fuel : nat) :
  forall page out n tr n' r,
    balanceLoop cfg net fuel from to page out n = (tr, n', r) ->
    balance_run cfg net from to page out n tr n' r.
Proof.
  induction fuel as [|fuel IH]; intros page out n tr n' r.
  - intros [= <- <- <-]. constructor.
  - simpl. unfold bind at 1, getBalanceChanges, http.
    fold (balance_request cfg from to page).
    destruct (net n (balance_request cfg from to page)) as [msg|st|body] eqn:E.
    + intros [= <- <- <-]. now constructor.
    + intros [= <- <- <-]. now constructor.
    + fold (balance_list body). unfold map_balance, of_option, bind at 1.
      destruct (balance_rows (balance_list body)) as [new|] eqn:R.
      * cbn [ret].
        pose proof (balance_rows_empty _ _ R) as L.
        destruct (truthy (get_prop (balance_list body) "length")) eqn:T; simpl negb; simpl orb.
        -- destruct (Z.leb_spec (maxRows cfg) (len (out ++ new))) as [Hcap|Hcap].
           ++ cbn. intros [= <- <- <-]. apply balance_break; auto.
           ++ unfold sleep, emit, bind.
              destruct (balanceLoop cfg net fuel from to (page + 1) (out ++ new) (S n))
                as [[t2 n2] r2] eqn:E2.
              apply IH in E2. intros [= <- <- <-]. cbn [app].
              apply balance_continue; auto.
              intros ->. destruct L as [_ L]. discriminate L; reflexivity.
        -- cbn. intros [= <- <- <-]. apply balance_break; auto.
           left. now apply L.
      * cbn. intros [= <- <- <-]. now apply balance_type_error.
Qed.

Lemma balancePhase_sound (fuel : nat) (n : nat) tr n' r :
  balancePhase cfg net fuel n = (tr, n', r) -> phase_run cfg net n tr n' r.
Proof.
  unfold balancePhase. fold (dates_given cfg).
  destruct (dates_given cfg) eqn:D.
  - unfold bind, emit.
    destruct (balanceLoop cfg net fuel (epoch_or (startEpoch cfg) 0)
                (epoch_or (endEpoch cfg) (now cfg)) 1 [] n) as [[t n1] [out|e|]] eqn:E;
      apply balanceLoop_sound in E; cbn; intros [= <- <- <-].
    + now apply phase_done with out.
    + now apply phase_failed.
    + now apply phase_pending.
  - intros [= <- <- <-]. now apply phase_skipped.
Qed.

(** Every invocation of [fetchAll] is a run of [fetch_run]; it is
    [Pending] exactly when that run is still [Running]. *)
Lemma fetchAll_run (fuel : nat) tr n' r :
  fetchAll cfg net fuel 0%nat = (tr, n', r) ->
  exists en, fetch_run cfg net tr en /\ (r = Pending <-> en = Running).
Proof.
  unfold fetchAll, try_catch_finally, fetchAll_body.
  destruct (String.eqb_spec (apiKey cfg) "") as [K|K].
  { cbn. intros [= <- <- <-]. exists (Failed ErrNoApiKey).
    split; [now constructor|]. split; discriminate. }
  destruct (String.eqb_spec (address cfg) "") as [A|A].
  { cbn. intros [= <- <- <-]. exists (Failed ErrNoAddress).
    split; [now constructor|]. split; discriminate. }
  assert (V : valid cfg) by (split; assumption).
  unfold bind at 1 2 3 4 5, emit, getAccountDetail, http.
  fold (detail_request cfg).
  destruct (net 0%nat (detail_request cfg)) as [msg|st|detail] eqn:E.
  - cbn. intros [= <- <- <-]. exists (Failed (ErrRejected msg)).
    split; [now constructor|]. split; discriminate.
  - cbn. intros [= <- <- <-]. exists (Failed (ErrAccountDetail st)).
    split; [now constructor|]. split; discriminate.
  - unfold bind at 1 2. fold (acct_of detail).
    destruct (balancePhase cfg net fuel 1%nat) as [[bt n1] [[]|e|]] eqn:B;
      apply balancePhase_sound in B.
    + unfold bind at 1.
      destruct (txLoop cfg net fuel GenStart [] n1) as [[ct n2] [out2|e|]] eqn:T;
        apply txLoop_sound in T; cbn; intros [= <- <- <-].
      * exists Completed. split; [|split; discriminate].
        rewrite <- !app_assoc. now apply fetch_crawl_done with n1 n2 out2.
      * exists (Failed e). split; [|split; discriminate].
        rewrite ?app_nil_r, <- !app_assoc. now apply fetch_crawl_failed with n1 n2.
      * exists Running. split; [|split; reflexivity].
        rewrite ?app_nil_r. now apply fetch_crawl_pending with n1 n2.
    + cbn. intros [= <- <- <-]. exists (Failed e). split; [|split; discriminate].
      rewrite ?app_nil_r. now apply fetch_balance_failed with n1.
    + cbn. intros [= <- <- <-]. exists Running. split; [|split; reflexivity].
      rewrite ?app_nil_r. now apply fetch_balance_pending with n1.
Qed.

(** [fetchAll] is its [try] block followed by what [catch] and [finally]
    emit. *)
Lemma fetchAll_unfold (fuel : nat) (n : nat) :
  fetchAll cfg net fuel n =
    (trace_of (fetchAll_body cfg net fuel n)
       ++ handler_events (outcome_of (fetchAll_body cfg net fuel n)),
     snd (fst (fetchAll_body cfg net fuel n)),
     match outcome_of (fetchAll_body cfg net fuel n) with
     | Pending => Pending
     | _ => Ok tt
     end).
Proof.
  unfold fetchAll, try_catch_finally, trace_of, outcome_of.
  destruct (fetchAll_body cfg net fuel n) as [[t n1] [[]|e|]]; cbn;
    rewrite ?app_nil_r; reflexivity.
Qed.

(** The run of [fetchAll] ends as its [try] block does. *)
Lemma fetchAll_body_run (fuel : nat) t n' r :
  fetchAll_body cfg net fuel 0%nat = (t, n', r) ->
  fetch_run cfg net (t ++ handler_events r) (ending_of r).
Proof.
  unfold fetchAll_body.
  destruct (String.eqb_spec (apiKey cfg) "") as [K|K].
  { cbn. intros [= <- <- <-]. now constructor. }
  destruct (String.eqb_spec (address cfg) "") as [A|A].
  { cbn. intros [= <- <- <-]. now constructor. }
  assert (V : valid cfg) by (split; assumption).
  unfold bind at 1 2 3 4 5, emit, getAccountDetail, http.
  fold (detail_request cfg).
  destruct (net 0%nat (detail_request cfg)) as [msg|st|detail] eqn:E.
  - cbn. intros [= <- <- <-]. now constructor.
  - cbn. intros [= <- <- <-]. now constructor.
  - unfold bind at 1 2. fold (acct_of detail).
    destruct (balancePhase cfg net fuel 1%nat) as [[bt n1] [[]|e|]] eqn:B;
      apply balancePhase_sound in B.
    + unfold bind at 1.
      destruct (txLoop cfg net fuel GenStart [] n1) as [[ct n2] [out2|e|]] eqn:T;
        apply txLoop_sound in T; cbn; intros [= <- <- <-].
      * cbn. rewrite <- !app_assoc. now apply fetch_crawl_done with n1 n2 out2.
      * cbn. rewrite ?app_nil_r, <- !app_assoc. now apply fetch_crawl_failed with n1 n2.
      * cbn. rewrite ?app_nil_r. now apply fetch_crawl_pending with n1 n2.
    + cbn. intros [= <- <- <-]. cbn. rewrite ?app_nil_r.
      now apply fetch_balance_failed with n1.
    + cbn. intros [= <- <- <-]. cbn. rewrite ?app_nil_r.
      now apply fetch_balance_pending with n1.
Qed.

Lemma fetchAll_sound (fuel : nat) :
  exists en,
    fetch_run cfg net (trace_of (run cfg net fuel)) en /\
    (outcome_of (run cfg net fuel) = Pending <-> en = Running).
Proof.
  unfold run. destruct (fetchAll cfg net fuel 0%nat) as [[tr n'] r] eqn:E.
  now apply fetchAll_run in E.
Qed.

End Soundness.

(** ** Shape of the traces *)

Ltac assoc_eq := repeat (rewrite <- ?app_assoc; simpl); rewrite ?app_nil_r; reflexivity.

Lemma replay_app (st : State) (t1 t2 : list event) :
  replay st (t1 ++ t2) = replay (replay st t1) t2.
Proof. apply fold_left_app. Qed.

Lemma replay_inner_status (tr : list event) :
  Forall inner_event tr ->
  forall st, working (status st) -> working (status (replay st tr)).
Proof.
  induction 1 as [|e tr He _ IH]; intros st W; [exact W|].
  simpl. apply IH. destruct e; simpl in *; auto.
Qed.

Lemma inner_progress (tr : list event) :
  Forall inner_event tr -> Forall (fun p => p <= 95) (progress_values tr).
Proof.
  induction 1 as [|e tr He _ IH]; simpl; [constructor|].
  destruct e; simpl; auto.
Qed.

Section Shapes.
Context {rt : Runtime}.
Variable cfg : Config.
Variable net : Network.

(** What [next()] leaves in the trace, by the way it ended. *)
Lemma next_run_yield g n t1 n1 page :
  next_run cfg net g n t1 n1 (Ok (Some page)) ->
  exists h body,
    t1 = [Net (tx_request cfg h) (HttpOk body)] /\ page = tx_list body /\
    truthy (get_prop page "length") = true.
Proof. inversion 1; subst. eauto. Qed.

Lemma next_run_end g n t1 n1 :
  next_run cfg net g n t1 n1 (Ok None) ->
  t1 = [] \/
  exists h body,
    t1 = [Net (tx_request cfg h) (HttpOk body)] /\
    truthy (get_prop (tx_list body) "length") = false.
Proof. inversion 1; subst; eauto. Qed.

Lemma next_run_throw g n t1 n1 e :
  next_run cfg net g n t1 n1 (Throw e) ->
  exists h res, t1 = [Net (tx_request cfg h) res] /\ forall body, res <> HttpOk body.
Proof. inversion 1; subst; do 2 eexists; (split; [reflexivity|discriminate]). Qed.

Lemma next_run_events g n t1 n1 r :
  next_run cfg net g n t1 n1 r -> Forall tx_event t1.
Proof. inversion 1; subst; repeat constructor. Qed.

Lemma tx_run_events g out2 n ct n2 r :
  tx_run cfg net g out2 n ct n2 r -> Forall tx_event ct.
Proof.
  induction 1;
    repeat match goal with
           | H : next_run _ _ _ _ _ _ _ |- _ => apply next_run_events in H
           end;
    rewrite ?Forall_app; repeat split; auto.
  - repeat constructor. apply Z.le_min_l.
  - repeat constructor. apply Z.le_min_l.
  - constructor; [exact I|assumption].
Qed.

Lemma balance_run_events from to page out n t n1 r :
  balance_run cfg net from to page out n t n1 r -> Forall balance_event t.
Proof.
  induction 1; repeat constructor; try apply Z.le_min_l.
  assumption.
Qed.

Lemma tx_event_inner e : tx_event e -> inner_event e.
Proof. destruct e as [[]| |[]| | | |]; simpl; auto; try contradiction. Qed.

Lemma balance_event_inner e : balance_event e -> inner_event e.
Proof. destruct e as [[]| |[]| | | |]; simpl; auto; try contradiction; lia. Qed.

Lemma phase_run_inner n bt n1 r :
  phase_run cfg net n bt n1 r -> Forall inner_event bt.
Proof.
  inversion 1; subst;
    repeat match goal with
           | H : balance_run _ _ _ _ _ _ _ _ _ _ |- _ =>
               apply balance_run_events in H;
               apply (Forall_impl _ balance_event_inner) in H
           end;
    repeat (constructor; try exact I); rewrite ?Forall_app; auto.
  split; [assumption|]. repeat constructor.
Qed.

Lemma tx_run_inner g out2 n ct n2 r :
  tx_run cfg net g out2 n ct n2 r -> Forall inner_event ct.
Proof.
  intros H. apply tx_run_events in H. revert H. apply Forall_impl, tx_event_inner.
Qed.

Lemma fetch_run_shape tr en :
  fetch_run cfg net tr en ->
  match en with
  | Completed => exists t, tr = (prologue ++ t) ++ success /\ Forall inner_event t
  | Failed e => tr = failure e \/ exists t, tr = (prologue ++ t) ++ failure e /\ Forall inner_event t
  | Running => exists t, tr = prologue ++ t /\ Forall inner_event t
  end.
Proof.
  destruct 1;
    repeat match goal with
           | H : phase_run _ _ _ _ _ _ |- _ => apply phase_run_inner in H
           | H : tx_run _ _ _ _ _ _ _ _ |- _ => apply tx_run_inner in H
           end.
  - now left.
  - now left.
  - right. exists [Net (detail_request cfg) (Rejected msg)].
    split; [assoc_eq|]. repeat constructor.
  - right. exists [Net (detail_request cfg) (HttpNotOk st)].
    split; [assoc_eq|]. repeat constructor.
  - right. exists (Net (detail_request cfg) (HttpOk detail) :: SetAcct (acct_of detail) :: bt).
    split; [assoc_eq|]. repeat (constructor; try exact I). assumption.
  - exists (Net (detail_request cfg) (HttpOk detail) :: SetAcct (acct_of detail) :: bt).
    split; [reflexivity|]. repeat (constructor; try exact I). assumption.
  - exists (Net (detail_request cfg) (HttpOk detail) :: SetAcct (acct_of detail) :: bt ++ ct).
    split; [assoc_eq|].
    repeat (constructor; try exact I). rewrite Forall_app. auto.
  - right.
    exists (Net (detail_request cfg) (HttpOk detail) :: SetAcct (acct_of detail) :: bt ++ ct).
    split; [assoc_eq|].
    repeat (constructor; try exact I). rewrite Forall_app. auto.
  - exists (Net (detail_request cfg) (HttpOk detail) :: SetAcct (acct_of detail) :: bt ++ ct).
    split; [reflexivity|].
    repeat (constructor; try exact I). rewrite Forall_app. auto.
Qed.

(** The final status tells how the run ended. *)
Lemma fetch_run_status tr en (st : State) :
  fetch_run cfg net tr en ->
  match en with
  | Completed => status (replay st tr) = StDone
  | Failed e => status (replay st tr) = StFailed e
  | Running => working (status (replay st tr))
  end.
Proof.
  intros H. apply fetch_run_shape in H. destruct en as [|e|].
  - destruct H as (t & -> & _). now rewrite replay_app.
  - destruct H as [->|(t & -> & _)]; [reflexivity|]. now rewrite replay_app.
  - destruct H as (t & -> & Ht). rewrite replay_app.
    apply replay_inner_status; [assumption|exact I].
Qed.

Lemma fetch_run_succeeded tr en (st : State) :
  fetch_run cfg net tr en -> succeeded (replay st tr) -> en = Completed.
Proof.
  intros H S. apply (fetch_run_status _ _ st) in H. unfold succeeded in S.
  destruct en; [reflexivity| |]; rewrite S in H; [discriminate|contradiction].
Qed.

Lemma fetch_run_failed tr en (st : State) e :
  fetch_run cfg net tr en -> failed_with e (replay st tr) -> en = Failed e.
Proof.
  intros H S. apply (fetch_run_status _ _ st) in H. unfold failed_with in S.
  destruct en; rewrite S in H; [discriminate|congruence|contradiction].
Qed.

End Shapes.

(** ** What each loop accumulates *)

Lemma tx_list_empty (body : value) :
  truthy (get_prop (tx_list body) "length") = false -> elems_or_nil (tx_list body) = [].
Proof.
  unfold tx_list, js_or.
  destruct (opt_get body "data") as [| |b|k|s|elts|fields]; simpl; try reflexivity.
  - destruct b; reflexivity.
  - destruct (k =? 0); reflexivity.
  - destruct s; simpl; [reflexivity|discriminate].
  - destruct elts; simpl; [reflexivity|discriminate].
Qed.

Lemma tx_rows_elems (page : value) (new : list Row) :
  tx_rows page = Some new ->
  new = map normalizeTx (elems_or_nil page) /\
  (truthy (get_prop page "length") = true -> elems_or_nil page <> []).
Proof.
  unfold tx_rows, elems_or_nil, normalize_all.
  destruct page as [| | | |s|elts|]; simpl; try discriminate.
  - destruct (existsb _ _); [discriminate|]. intros [= <-]. split; [reflexivity|].
    destruct s; simpl; [discriminate|]. intros _. discriminate.
  - destruct (existsb _ _); [discriminate|]. intros [= <-]. split; [reflexivity|].
    destruct elts; simpl; [discriminate|]. intros _. discriminate.
Qed.

Lemma balance_rows_elems (lst : value) (new : list Row) :
  balance_rows lst = Some new ->
  exists elts, lst = VArr elts /\ new = map normalizeBalance elts.
Proof.
  destruct lst as [| | | | |elts|]; try discriminate.
  unfold balance_rows, normalize_all.
  destruct (existsb nullish elts); [discriminate|]. intros [= <-]. eauto.
Qed.

Section Accumulation.
Context {rt : Runtime}.
Variable cfg : Config.
Variable net : Network.

Local Abbreviation dfilter := (date_filter (startEpoch cfg) (endEpoch cfg)).

Lemma date_filter_nil : dfilter [] = [].
Proof. now rewrite date_filter_keeps. Qed.

Lemma filtered_split (out2 new : list Row) :
  dfilter out2 = out2 -> filtered cfg out2 new = out2 ++ dfilter new.
Proof. intros H. unfold filtered. now rewrite date_filter_app, H. Qed.

Lemma filtered_fixed (out2 new : list Row) :
  dfilter (filtered cfg out2 new) = filtered cfg out2 new.
Proof. apply date_filter_fixed. Qed.

Lemma tx_elems_app (t1 t2 : list event) : tx_elems (t1 ++ t2) = tx_elems t1 ++ tx_elems t2.
Proof. apply flat_map_app. Qed.

Lemma balance_elems_app (t1 t2 : list event) :
  balance_elems (t1 ++ t2) = balance_elems t1 ++ balance_elems t2.
Proof. apply flat_map_app. Qed.

Lemma tx_elems_yield h body (t : list event) :
  tx_elems (Net (tx_request cfg h) (HttpOk body) :: t) = elems_or_nil (tx_list body) ++ tx_elems t.
Proof. reflexivity. Qed.

Lemma tx_elems_reports (o : list Row) (t : list event) :
  tx_elems (tx_reports cfg o ++ Sleep 120 :: t) = tx_elems t.
Proof. reflexivity. Qed.

Lemma replay_yield (st : State) req res (o : list Row) (t : list event) :
  replay st (Net req res :: tx_reports cfg o ++ Sleep 120 :: t)
  = replay (mkState (StFetched (len o)) (loading st) (tx_progress cfg (len o)) (acct st) o) t.
Proof. reflexivity. Qed.

(** The crawl: its accumulator is the filtered normalisation of all the
    entries received, and it is what the row set shows once a batch has
    been processed. *)
Lemma tx_run_rows g out2 n ct n2 r :
  tx_run cfg net g out2 n ct n2 r ->
  dfilter out2 = out2 ->
  balance_elems ct = [] /\
  match r with
  | Ok out2' =>
      out2' = out2 ++ dfilter (map normalizeTx (tx_elems ct)) /\
      forall st, rows (replay st ct) = match tx_elems ct with [] => rows st | _ :: _ => out2' end
  | _ => True
  end.
Proof.
  induction 1 as [g out2 n|g out2 n t1 n1 Hn|g out2 n t1 n1 e Hn|g out2 n t1 n1 page Hn R
                 |g out2 n t1 n1 page new Hn R Hcap
                 |g out2 n t1 n1 page new t2 n2 r Hn R Hcap Hrun IH]; intros F.
  - split; [reflexivity|exact I].
  - apply next_run_end in Hn. destruct Hn as [->|(h & body & -> & L)].
    + simpl. rewrite date_filter_nil, app_nil_r. auto.
    + simpl. rewrite app_nil_r, (tx_list_empty _ L). simpl.
      rewrite date_filter_nil, app_nil_r. auto.
  - apply next_run_throw in Hn. destruct Hn as (h & res & -> & _). now split.
  - apply next_run_yield in Hn. destruct Hn as (h & body & -> & _ & _). now split.
  - apply next_run_yield in Hn. destruct Hn as (h & body & -> & -> & L).
    apply tx_rows_elems in R. destruct R as [-> NE]. specialize (NE L).
    split; [reflexivity|]. rewrite tx_elems_app. simpl. rewrite !app_nil_r.
    split; [now apply filtered_split|].
    intros st. destruct (elems_or_nil (tx_list body)); [contradiction|reflexivity].
  - apply next_run_yield in Hn. destruct Hn as (h & body & -> & -> & L).
    apply tx_rows_elems in R. destruct R as [-> NE]. specialize (NE L).
    specialize (IH (filtered_fixed _ _)). destruct IH as [B IH].
    split; [exact B|]. destruct r as [out2'| |]; [|exact I|exact I].
    destruct IH as [-> IH]. cbn [app]. rewrite tx_elems_yield, tx_elems_reports.
    split.
    + rewrite filtered_split by assumption.
      now rewrite map_app, date_filter_app, app_assoc.
    + intros st. rewrite replay_yield, IH. cbn [rows].
      destruct (elems_or_nil (tx_list body)) eqn:EE; [contradiction|]. cbn [app].
      destruct (tx_elems t2); [|reflexivity].
      cbn [map]. now rewrite date_filter_nil, app_nil_r.
Qed.

Lemma balance_run_rows from to page out n t n1 r :
  balance_run cfg net from to page out n t n1 r ->
  tx_elems t = [] /\
  match r with
  | Ok out' =>
      out' = out ++ map normalizeBalance (balance_elems t) /\
      forall st, rows (replay st t) = out'
  | _ => True
  end.
Proof.
  induction 1 as [page out n|page out n msg E|page out n s E|page out n body E R
                 |page out n body new E R Hstop
                 |page out n body new t2 n2 r E R NE Hcap Hrun IH].
  - now split.
  - now split.
  - now split.
  - now split.
  - apply balance_rows_elems in R. destruct R as (elts & L & ->).
    split; [reflexivity|]. simpl. rewrite L, app_nil_r. now split.
  - apply balance_rows_elems in R. destruct R as (elts & L & ->).
    destruct IH as [T IH]. split; [exact T|].
    destruct r as [out'| |]; [|exact I|exact I].
    destruct IH as [-> IH]. cbn [balance_elems flat_map]. fold (balance_elems t2).
    rewrite L. split.
    + now rewrite map_app, app_assoc.
    + intros st. cbn [app replay fold_left apply_event balance_reports].
      match goal with |- rows (fold_left _ _ ?s) = _ => specialize (IH s) end.
      exact IH.
Qed.

End Accumulation.

(** ** The final row set *)

Section FinalRows.
Context {rt : Runtime}.
Variable cfg : Config.
Variable net : Network.

Lemma replay_cons (st : State) (e : event) (t : list event) :
  replay st (e :: t) = replay (apply_event st e) t.
Proof. reflexivity. Qed.

Lemma rows_success (st : State) : rows (replay st success) = rows st.
Proof. reflexivity. Qed.

Lemma rows_failure (st : State) (e : exn) : rows (replay st (failure e)) = rows st.
Proof. reflexivity. Qed.

Lemma tx_elems_cons (e : event) (t : list event) :
  tx_elems (e :: t) = tx_elems [e] ++ tx_elems t.
Proof. apply (tx_elems_app [e] t). Qed.

Lemma balance_elems_cons (e : event) (t : list event) :
  balance_elems (e :: t) = balance_elems [e] ++ balance_elems t.
Proof. apply (balance_elems_app [e] t). Qed.

Lemma phase_run_rows n bt n1 :
  phase_run cfg net n bt n1 (Ok tt) ->
  tx_elems bt = [] /\
  forall st, rows st = [] -> rows (replay st bt) = map normalizeBalance (balance_elems bt).
Proof.
  inversion 1 as [D| t n1' out D Hrun | |]; subst.
  - split; [reflexivity|]. intros st E. exact E.
  - apply balance_run_rows in Hrun. destruct Hrun as [T [-> R]].
    split.
    + now rewrite tx_elems_cons, tx_elems_app, T.
    + intros st _. rewrite replay_cons, replay_app.
      rewrite balance_elems_cons, balance_elems_app. cbn.
      rewrite app_nil_r. apply R.
Qed.

Lemma completed_rows tr (st : State) :
  fetch_run cfg net tr Completed ->
  rows (replay st tr) =
    match tx_elems tr with
    | [] => map normalizeBalance (balance_elems tr)
    | _ :: _ => date_filter (startEpoch cfg) (endEpoch cfg) (map normalizeTx (tx_elems tr))
    end.
Proof.
  inversion 1 as [| | | | | |detail bt n1 ct n2 out2 V E P T| |]; subst.
  apply phase_run_rows in P. destruct P as [PT PR].
  apply tx_run_rows in T; [|apply date_filter_nil]. destruct T as [TB [-> TR]].
  rewrite tx_elems_app, balance_elems_app.
  rewrite (tx_elems_cons (Net _ _)), (tx_elems_cons (SetAcct _)), !tx_elems_app, PT.
  rewrite (balance_elems_cons (Net _ _)), (balance_elems_cons (SetAcct _)),
    !balance_elems_app, TB.
  cbn [prologue success tx_elems balance_elems flat_map detail_request app].
  rewrite !app_nil_r.
  rewrite !replay_cons, !replay_app, rows_success.
  rewrite TR, PR by reflexivity.
  destruct (tx_elems ct); reflexivity.
Qed.

End FinalRows.

(** C1, as stated, fails.  Transaction [A] comes with the balance-change
    page and again with the transaction page; the run succeeds, the
    balance-change phase reported the row of [A], and the final row set
    holds the row of the crawl alone, not the two rows the claim
    announces. *)
Lemma balance_rows_replaced_by_crawl :
  succeeded (final_state initial_state (@run plain_runtime cfg_dates net_shared 10)) /\
  rows_reports (trace_of (@run plain_runtime cfg_dates net_shared 10))
    = [[]; [row_of 100 "A"]; [row_of 100 "A"]; [row_of 100 "A"]] /\
  map normalizeBalance (balance_elems (trace_of (@run plain_runtime cfg_dates net_shared 10)))
    = [row_of 100 "A"] /\
  map normalizeTx (tx_elems (trace_of (@run plain_runtime cfg_dates net_shared 10)))
    = [row_of 100 "A"] /\
  rows (final_state initial_state (@run plain_runtime cfg_dates net_shared 10))
    = [row_of 100 "A"] /\
  rows (final_state initial_state (@run plain_runtime cfg_dates net_shared 10))
    <> [row_of 100 "A"] ++ [row_of 100 "A"].
Proof. repeat split; try reflexivity. discriminate. Qed.

(** C1, amended. The row set a successful fetch leaves holds the rows of
    one phase only: when the crawl received at least one entry it is the
    date-filtered normalisation of the entries of the transaction pages,
    in the order received, and the balance-change rows are no longer in
    it; otherwise it is the normalisation of the entries of the
    balance-change pages.  The rows of the two phases are not
    concatenated. *)
Theorem final_rows_one_phase {rt : Runtime} (cfg : Config) (net : Network) (fuel : nat)
    (st : State) :
  succeeded (final_state st (run cfg net fuel)) ->
  rows (final_state st (run cfg net fuel)) =
    match tx_elems (trace_of (run cfg net fuel)) with
    | [] => map normalizeBalance (balance_elems (trace_of (run cfg net fuel)))
    | _ :: _ =>
        date_filter (startEpoch cfg) (endEpoch cfg)
          (map normalizeTx (tx_elems (trace_of (run cfg net fuel))))
    end.
Proof.
  intros S. destruct (fetchAll_sound cfg net fuel) as (en & R & _).
  unfold final_state in *.
  rewrite (fetch_run_succeeded _ _ _ _ st R S) in R.
  now apply (completed_rows cfg net).
Qed.

Lemma final_rows_one_phase_witness :
  rows (final_state initial_state (@run plain_runtime cfg_dates net_shared 10)) =
    match tx_elems (trace_of (@run plain_runtime cfg_dates net_shared 10)) with
    | [] => map normalizeBalance
              (balance_elems (trace_of (@run plain_runtime cfg_dates net_shared 10)))
    | _ :: _ =>
        @date_filter plain_runtime (startEpoch cfg_dates) (endEpoch cfg_dates)
          (map normalizeTx (tx_elems (trace_of (@run plain_runtime cfg_dates net_shared 10))))
    end.
Proof.
  apply (@final_rows_one_phase plain_runtime cfg_dates net_shared 10 initial_state).
  reflexivity.
Defined.

(** ** Failures *)

(** C8. With an empty API key or an empty address the operation fails
    with the validation error, its trace holds no request, and the rows
    are those it was invoked with.  A fetch ends with the failure [e]
    exactly when its [try] block threw [e]; its trace is then the trace
    of the [try] block up to the throw followed by the failed status and
    the end of loading, and nothing else: the rows and the progress are
    those the [try] block had reported when it threw. *)
Theorem failure_keeps_rows {rt : Runtime} (cfg : Config) (net : Network) (fuel : nat)
    (st : State) :
  (apiKey cfg = "" \/ address cfg = "" ->
   exists e,
     (e = ErrNoApiKey \/ e = ErrNoAddress) /\
     trace_of (run cfg net fuel) = failure e /\
     existsb is_request (trace_of (run cfg net fuel)) = false /\
     failed_with e (final_state st (run cfg net fuel)) /\
     rows (final_state st (run cfg net fuel)) = rows st)
  /\
  (forall e,
     failed_with e (final_state st (run cfg net fuel)) ->
     outcome_of (fetchAll_body cfg net fuel 0%nat) = Throw e /\
     trace_of (run cfg net fuel)
       = trace_of (fetchAll_body cfg net fuel 0%nat) ++ failure e /\
     rows (final_state st (run cfg net fuel))
       = rows (replay st (trace_of (fetchAll_body cfg net fuel 0%nat))) /\
     progress (final_state st (run cfg net fuel))
       = progress (replay st (trace_of (fetchAll_body cfg net fuel 0%nat))))
  /\
  (forall e,
     outcome_of (fetchAll_body cfg net fuel 0%nat) = Throw e ->
     failed_with e (final_state st (run cfg net fuel))).
Proof.
  destruct (fetchAll_sound cfg net fuel) as (en & R & _).
  assert (U : trace_of (run cfg net fuel)
              = trace_of (fetchAll_body cfg net fuel 0%nat)
                  ++ handler_events (outcome_of (fetchAll_body cfg net fuel 0%nat))).
  { unfold run. now rewrite fetchAll_unfold. }
  assert (B : fetch_run cfg net (trace_of (run cfg net fuel))
                (ending_of (outcome_of (fetchAll_body cfg net fuel 0%nat)))).
  { rewrite U. destruct (fetchAll_body cfg net fuel 0%nat) as [[t n'] r] eqn:E.
    now apply fetchAll_body_run in E. }
  unfold final_state. split; [|split].
  - intros Hempty.
    assert (K : exists e, (e = ErrNoApiKey \/ e = ErrNoAddress) /\
                          trace_of (run cfg net fuel) = failure e).
    { inversion R as [K|K A|msg [K A]|s [K A]|d bt n1 e [K A]|d bt n1 [K A]
                     |d bt n1 ct n2 o [K A]|d bt n1 ct n2 e [K A]|d bt n1 ct n2 [K A]];
        try (destruct Hempty; contradiction).
      - exists ErrNoApiKey. auto.
      - exists ErrNoAddress. auto. }
    destruct K as (e & He & ->). exists e. repeat split; auto.
  - intros e F.
    pose proof (fetch_run_failed _ _ _ _ st e B F) as O.
    assert (T : outcome_of (fetchAll_body cfg net fuel 0%nat) = Throw e).
    { destruct (outcome_of (fetchAll_body cfg net fuel 0%nat)); try discriminate O.
      now injection O as ->. }
    rewrite T in U. cbn [handler_events] in U.
    rewrite U, replay_app. repeat split. exact T.
  - intros e T. rewrite T in B. cbn [ending_of] in B.
    apply (fetch_run_status _ _ _ _ st B).
Qed.

Lemma failure_keeps_rows_witness :
  (exists e,
     (e = ErrNoApiKey \/ e = ErrNoAddress) /\
     trace_of (@run plain_runtime (mkConfig "" "addr" None None 20000 2000) net_fails 10)
       = failure e /\
     existsb is_request
       (trace_of (@run plain_runtime (mkConfig "" "addr" None None 20000 2000) net_fails 10))
       = false /\
     failed_with e
       (final_state initial_state
          (@run plain_runtime (mkConfig "" "addr" None None 20000 2000) net_fails 10)) /\
     rows (final_state initial_state
             (@run plain_runtime (mkConfig "" "addr" None None 20000 2000) net_fails 10))
       = rows initial_state)
  /\
  (outcome_of (@fetchAll_body plain_runtime (cfg_nodates 20000) net_fails 10 0%nat)
     = Throw (ErrTransactions 500) /\
   trace_of (@run plain_runtime (cfg_nodates 20000) net_fails 10)
     = trace_of (@fetchAll_body plain_runtime (cfg_nodates 20000) net_fails 10 0%nat)
         ++ failure (ErrTransactions 500) /\
   rows (final_state initial_state (@run plain_runtime (cfg_nodates 20000) net_fails 10))
     = rows (replay initial_state
               (trace_of (@fetchAll_body plain_runtime (cfg_nodates 20000) net_fails 10 0%nat))) /\
   progress (final_state initial_state (@run plain_runtime (cfg_nodates 20000) net_fails 10))
     = progress (replay initial_state
                   (trace_of (@fetchAll_body plain_runtime (cfg_nodates 20000) net_fails 10
                                0%nat))))
  /\
  failed_with (ErrTransactions 500)
    (final_state initial_state (@run plain_runtime (cfg_nodates 20000) net_fails 10))
  /\
  rows (final_state initial_state (@run plain_runtime (cfg_nodates 20000) net_fails 10))
    = [row_of 300 "P"].
Proof.
  split; [|split; [|split]].
  - apply (proj1 (@failure_keeps_rows plain_runtime
                    (mkConfig "" "addr" None None 20000 2000) net_fails 10 initial_state)).
    left. reflexivity.
  - apply (proj1 (proj2 (@failure_keeps_rows plain_runtime (cfg_nodates 20000) net_fails 10
                           initial_state))).
    reflexivity.
  - apply (proj2 (proj2 (@failure_keeps_rows plain_runtime (cfg_nodates 20000) net_fails 10
                           initial_state))).
    reflexivity.
  - reflexivity.
Defined.

(** ** The cap and the transaction-page requests *)

Section Monitor.
Variable cap : Z.

Lemma monitor_run_app (m : monitor) (t1 t2 : list event) :
  monitor_run cap m (t1 ++ t2) = monitor_run cap (monitor_run cap m t1) t2.
Proof. apply fold_left_app. Qed.

Lemma monitor_run_cons (m : monitor) (e : event) (t : list event) :
  monitor_run cap m (e :: t) = monitor_run cap (monitor_step cap m e) t.
Proof. reflexivity. Qed.

Lemma violated_mono (tr : list event) :
  forall m, violated m = true -> violated (monitor_run cap m tr) = true.
Proof.
  induction tr as [|e tr IH]; intros m H; [exact H|].
  rewrite monitor_run_cons. apply IH.
  destruct e as [[]| | | | | |]; simpl; rewrite ?H; auto.
Qed.

Lemma capped_mono (tr : list event) :
  forall m, capped m = true -> capped (monitor_run cap m tr) = true.
Proof.
  induction tr as [|e tr IH]; intros m H; [exact H|].
  rewrite monitor_run_cons. apply IH.
  destruct e as [[]| | | | | |]; simpl; rewrite ?H; auto.
Qed.

Lemma crawling_mono (tr : list event) :
  forall m, crawling m = true -> crawling (monitor_run cap m tr) = true.
Proof.
  induction tr as [|e tr IH]; intros m H; [exact H|].
  rewrite monitor_run_cons. apply IH.
  destruct e as [[]| | | | | |]; simpl; rewrite ?H; auto.
Qed.

Lemma crawling_after_request (tr : list event) :
  forall m, existsb is_tx_request tr = true -> crawling (monitor_run cap m tr) = true.
Proof.
  induction tr as [|e tr IH]; intros m H; [discriminate|].
  rewrite monitor_run_cons. simpl in H. apply orb_true_iff in H. destruct H as [H|H].
  - apply crawling_mono. destruct e as [[]| | | | | |]; try discriminate. reflexivity.
  - now apply IH.
Qed.

(** Without transaction-page request the monitor records no violation,
    and before the crawl it does not move at all. *)
Lemma violated_quiet (tr : list event) :
  Forall (fun e => is_tx_request e = false) tr ->
  forall m, violated (monitor_run cap m tr) = violated m.
Proof.
  induction 1 as [|e tr He _ IH]; intros m; [reflexivity|].
  rewrite monitor_run_cons, IH.
  destruct e as [[]| | | | | |]; try reflexivity. discriminate.
Qed.

Lemma monitor_quiet (tr : list event) :
  Forall (fun e => is_tx_request e = false) tr ->
  forall m, crawling m = false -> monitor_run cap m tr = m.
Proof.
  induction 1 as [|e tr He _ IH]; intros m C; [reflexivity|].
  rewrite monitor_run_cons.
  assert (S : monitor_step cap m e = m).
  { destruct m as [c k v]. simpl in C. subst c.
    destruct e as [[]| | | | | |]; try reflexivity; try discriminate.
    simpl. now rewrite orb_false_r. }
  rewrite S. now apply IH.
Qed.

(** A report that reached the cap during the crawl, followed by a
    transaction-page request, is a violation. *)
Lemma monitor_split (m : monitor) (pre mid post : list event) (rs : list Row) req res :
  is_tx_request (Net req res) = true ->
  crawling (monitor_run cap m pre) = true ->
  violated (monitor_run cap m (pre ++ SetRows rs :: mid ++ Net req res :: post)) = false ->
  len rs < cap.
Proof.
  intros Q C V. destruct (Z_lt_le_dec (len rs) cap) as [|Hcap]; [assumption|exfalso].
  rewrite monitor_run_app, monitor_run_cons, monitor_run_app, monitor_run_cons in V.
  rewrite violated_mono in V; [discriminate|].
  destruct req; try discriminate. simpl.
  apply orb_true_iff. right. apply capped_mono.
  simpl. rewrite C. unfold len in Hcap. apply Z.leb_le in Hcap. rewrite Hcap.
  now rewrite orb_true_r.
Qed.

End Monitor.

Section CapAndRequests.
Context {rt : Runtime}.
Variable cfg : Config.
Variable net : Network.

Lemma next_run_monitor g n t1 n1 r (m : monitor) :
  next_run cfg net g n t1 n1 r ->
  capped m = false -> violated m = false ->
  capped (monitor_run (maxRows cfg) m t1) = false /\
  violated (monitor_run (maxRows cfg) m t1) = false.
Proof.
  intros H K V. inversion H; subst; simpl; rewrite ?K, ?V; auto.
Qed.

Lemma tx_run_monitor g out2 n ct n2 r :
  tx_run cfg net g out2 n ct n2 r ->
  forall m, capped m = false -> violated m = false ->
  violated (monitor_run (maxRows cfg) m ct) = false.
Proof.
  induction 1 as [g out2 n|g out2 n t1 n1 Hn|g out2 n t1 n1 e Hn|g out2 n t1 n1 page Hn R
                 |g out2 n t1 n1 page new Hn R Hcap
                 |g out2 n t1 n1 page new t2 n2 r Hn R Hcap Hrun IH]; intros m K V.
  - exact V.
  - now apply (next_run_monitor _ _ _ _ _ m Hn).
  - now apply (next_run_monitor _ _ _ _ _ m Hn).
  - now apply (next_run_monitor _ _ _ _ _ m Hn).
  - rewrite monitor_run_app.
    destruct (next_run_monitor _ _ _ _ _ m Hn K V) as [_ V1]. exact V1.
  - rewrite monitor_run_app.
    destruct (next_run_monitor _ _ _ _ _ m Hn K V) as [K1 V1].
    rewrite monitor_run_app. apply IH; [|exact V1].
    simpl. rewrite K1. simpl.
    fold (len (filtered cfg out2 new)).
    apply Z.ltb_lt in Hcap. rewrite Z.ltb_antisym in Hcap.
    apply negb_true_iff in Hcap. rewrite Hcap. apply andb_false_r.
Qed.

Lemma balance_event_no_tx (e : event) : balance_event e -> is_tx_request e = false.
Proof. destruct e as [[]| | | | | |]; simpl; auto; contradiction. Qed.

Lemma phase_run_no_tx n bt n1 r :
  phase_run cfg net n bt n1 r -> Forall (fun e => is_tx_request e = false) bt.
Proof.
  inversion 1; subst;
    repeat match goal with
           | H : balance_run _ _ _ _ _ _ _ _ _ _ |- _ =>
               apply balance_run_events in H;
               apply (Forall_impl _ balance_event_no_tx) in H
           end;
    repeat (constructor; try reflexivity); rewrite ?Forall_app; auto.
Qed.

Ltac no_tx :=
  unfold prologue, failure, success;
  repeat first [assumption | reflexivity | apply Forall_cons | apply Forall_nil
               | rewrite Forall_app; split].

Ltac crawl_parts :=
  split; [assoc_eq|]; split; [no_tx|]; split; [no_tx|]; first [assumption | constructor].

(** A run is a prefix without transaction-page request, then the crawl,
    then an end without request. *)
Lemma fetch_run_crawl tr en :
  fetch_run cfg net tr en ->
  exists pre ct post n n2 r,
    tr = pre ++ ct ++ post /\
    Forall (fun e => is_tx_request e = false) pre /\
    Forall (fun e => is_tx_request e = false) post /\
    tx_run cfg net GenStart [] n ct n2 r.
Proof.
  destruct 1 as [K|K A|msg V E|s V E|detail bt n1 e V E P|detail bt n1 V E P
                |detail bt n1 ct n2 out2 V E P T|detail bt n1 ct n2 e V E P T
                |detail bt n1 ct n2 V E P T];
    try apply phase_run_no_tx in P.
  - exists (failure ErrNoApiKey), [], [], 0%nat, 0%nat, Pending. crawl_parts.
  - exists (failure ErrNoAddress), [], [], 0%nat, 0%nat, Pending. crawl_parts.
  - exists (prologue ++ Net (detail_request cfg) (Rejected msg) :: failure (ErrRejected msg)),
      [], [], 0%nat, 0%nat, Pending. crawl_parts.
  - exists (prologue ++ Net (detail_request cfg) (HttpNotOk s) :: failure (ErrAccountDetail s)),
      [], [], 0%nat, 0%nat, Pending. crawl_parts.
  - exists (prologue ++ Net (detail_request cfg) (HttpOk detail) :: SetAcct (acct_of detail) :: bt),
      [], (failure e), 0%nat, 0%nat, Pending. crawl_parts.
  - exists (prologue ++ Net (detail_request cfg) (HttpOk detail) :: SetAcct (acct_of detail) :: bt),
      [], [], 0%nat, 0%nat, Pending. crawl_parts.
  - exists (prologue ++ Net (detail_request cfg) (HttpOk detail) :: SetAcct (acct_of detail) :: bt),
      ct, success, n1, n2, (Ok out2). crawl_parts.
  - exists (prologue ++ Net (detail_request cfg) (HttpOk detail) :: SetAcct (acct_of detail) :: bt),
      ct, (failure e), n1, n2, (Throw e). crawl_parts.
  - exists (prologue ++ Net (detail_request cfg) (HttpOk detail) :: SetAcct (acct_of detail) :: bt),
      ct, [], n1, n2, Pending. crawl_parts.
Qed.

Lemma fetch_run_monitor tr en :
  fetch_run cfg net tr en ->
  violated (monitor_run (maxRows cfg) (mkMonitor false false false) tr) = false.
Proof.
  intros H. apply fetch_run_crawl in H.
  destruct H as (pre & ct & post & n & n2 & r & -> & Hpre & Hpost & T).
  rewrite !monitor_run_app, (violated_quiet _ post Hpost).
  rewrite (monitor_quiet _ pre Hpre) by reflexivity.
  now apply (tx_run_monitor _ _ _ _ _ _ T).
Qed.

End CapAndRequests.

(** C2, as stated, fails.  With cap [1] the single balance-change page
    brings the accumulated count to the cap, and the crawl requests a
    transaction page all the same. *)
Lemma crawl_starts_after_balance_cap :
  exists pre rs mid res post,
    trace_of (@run plain_runtime cfg_cap1 net_shared 10)
      = pre ++ SetRows rs :: mid ++ Net (ReqTx "addr" "key" 50 VUndefined) res :: post /\
    maxRows cfg_cap1 <= len rs /\
    violated (fold_left (monitor_step_any_phase (maxRows cfg_cap1))
                (trace_of (@run plain_runtime cfg_cap1 net_shared 10))
                (mkMonitor false false false)) = true.
Proof.
  exists [SetLoading true; SetStatus StFetchingAccount; SetProgress 5; SetRows [];
          Net (ReqDetail "addr" "key") (HttpOk (VObj [])); SetAcct VNull;
          SetStatus StFetchingBalanceChanges;
          Net (ReqBalance "addr" "key" 1 2000 1 100) (HttpOk (bal_body [bal_entry 100 "A"]))],
    [row_of 100 "A"],
    [SetProgress 24; SetStatus StFetchingTransactions],
    (HttpOk (tx_body [tx_entry 100 "A"])),
    [SetRows [row_of 100 "A"]; SetStatus (StFetched 1); SetProgress 60;
     SetStatus StDone; SetProgress 100; SetLoading false].
  split; [reflexivity|]. split; [discriminate|reflexivity].
Qed.

(** C2, amended. Once the crawl has reported a row set that reached the
    cap, no transaction page is requested: the monitor of the crawl records
    no violation, and a row set reported after the first transaction-page
    request and before another one is below the cap.  The count of the
    balance-change phase does not enter. *)
Theorem no_tx_request_after_crawl_cap {rt : Runtime} (cfg : Config) (net : Network)
    (fuel : nat) :
  violated (monitor_run (maxRows cfg) (mkMonitor false false false)
              (trace_of (run cfg net fuel))) = false
  /\
  forall pre rs mid a k l h res post,
    trace_of (run cfg net fuel) = pre ++ SetRows rs :: mid ++ Net (ReqTx a k l h) res :: post ->
    existsb is_tx_request pre = true ->
    len rs < maxRows cfg.
Proof.
  destruct (fetchAll_sound cfg net fuel) as (en & R & _).
  apply fetch_run_monitor in R. split; [exact R|].
  intros pre rs mid a k l h res post E Q. rewrite E in R.
  apply (monitor_split (maxRows cfg) (mkMonitor false false false) pre mid post rs
           (ReqTx a k l h) res); [reflexivity| |exact R].
  now apply crawling_after_request.
Qed.

Lemma no_tx_request_after_crawl_cap_witness :
  len [row_of 300 "P"; row_of 200 "Q"] < maxRows (cfg_nodates 3).
Proof.
  apply (proj2 (@no_tx_request_after_crawl_cap plain_runtime (cfg_nodates 3) net_pages 10)
           [SetLoading true; SetStatus StFetchingAccount; SetProgress 5; SetRows [];
            Net (ReqDetail "addr" "key") (HttpOk (VObj [("data", VObj [("lamports", VNum 5)])]));
            SetAcct (VObj [("lamports", VNum 5)]);
            Net (ReqTx "addr" "key" 50 VUndefined)
              (HttpOk (tx_body [tx_entry 300 "P"; tx_entry 200 "Q"]))]
           [row_of 300 "P"; row_of 200 "Q"]
           [SetStatus (StFetched 2); SetProgress 60; Sleep 120]
           "addr" "key" 50 (VStr "Q")
           (HttpOk (tx_body [tx_entry 300 "P"; tx_entry 200 "Q"]))
           [SetRows [row_of 300 "P"; row_of 200 "Q"; row_of 300 "P"; row_of 200 "Q"];
            SetStatus (StFetched 4); SetProgress 60;
            SetStatus StDone; SetProgress 100; SetLoading false]).
  - reflexivity.
  - reflexivity.
Defined.

(** ** The paginator *)

Section Paginator.
Context {rt : Runtime}.
Variable net : Network.
Variables (address apiKey : string) (limit : Z).

Lemma gen_fetch_cases (h : value) (n : nat) :
  gen_fetch net address apiKey limit h n =
    ([Net (ReqTx address apiKey limit h) (net n (ReqTx address apiKey limit h))], S n,
     match net n (ReqTx address apiKey limit h) with
     | Rejected msg => Throw (ErrRejected msg)
     | HttpNotOk st => Throw (ErrTransactions st)
     | HttpOk body =>
         if truthy (get_prop (tx_list body) "length") then Ok (Some (tx_list body)) else Ok None
     end).
Proof.
  unfold gen_fetch, bind, http.
  destruct (net n (ReqTx address apiKey limit h)) as [msg|st|body]; try reflexivity.
  fold (tx_list body). destruct (truthy (get_prop (tx_list body) "length")); reflexivity.
Qed.

Lemma gen_fetch_empty (h : value) (n : nat) tr n' r req body :
  gen_fetch net address apiKey limit h n = (tr, n', r) ->
  In (Net req (HttpOk body)) tr ->
  truthy (get_prop (tx_list body) "length") = false ->
  r = Ok None /\ tr = [Net req (HttpOk body)].
Proof.
  rewrite gen_fetch_cases. intros [= <- <- <-] [I|[]] L.
  injection I as E1 E2. rewrite E2, L, E1. split; reflexivity.
Qed.

Lemma gen_next_no_hash (lst : value) (n : nat) :
  opt_get (last_elem lst) "txHash" = VUndefined ->
  gen_next net address apiKey limit (GenSuspended lst) n = ([], n, Ok None).
Proof. intros H. simpl. now rewrite H. Qed.

Lemma iterTransactions_no_hash (lst : value) (n : nat) (fuel : nat) :
  opt_get (last_elem lst) "txHash" = VUndefined ->
  iterTransactions_from net (S fuel) address apiKey limit (GenSuspended lst) n = ([], n, Ok []).
Proof.
  intros H. cbn [iterTransactions_from]. unfold bind. now rewrite gen_next_no_hash.
Qed.

Lemma gen_next_yield_nonempty (g : gen) (n : nat) tr n' lst :
  gen_next net address apiKey limit g n = (tr, n', Ok (Some lst)) ->
  truthy (get_prop lst "length") = true.
Proof.
  assert (K : forall h, gen_fetch net address apiKey limit h n = (tr, n', Ok (Some lst)) ->
                        truthy (get_prop lst "length") = true).
  { intros h. rewrite gen_fetch_cases.
    destruct (net n (ReqTx address apiKey limit h)) as [msg|st|body]; try discriminate.
    destruct (truthy (get_prop (tx_list body) "length")) eqn:L; [|discriminate].
    now intros [= <- <- <-]. }
  destruct g as [|l]; simpl; [apply K|].
  destruct (truthy (opt_get (last_elem l) "txHash")); simpl; [apply K|discriminate].
Qed.

(** The run of the generator from [g], turn by turn. *)
Lemma iterTransactions_from_Ok (fuel : nat) (g : gen) (n : nat) tr n' batches :
  iterTransactions_from net fuel address apiKey limit g n = (tr, n', Ok batches) ->
  exists fuel', fuel = S fuel' /\
    (batches = [] \/
     exists t1 n1 lst t2 rest,
       gen_next net address apiKey limit g n = (t1, n1, Ok (Some lst)) /\
       iterTransactions_from net fuel' address apiKey limit (GenSuspended lst) n1
       = (t2, n', Ok rest) /\
       batches = lst :: rest).
Proof.
  destruct fuel as [|fuel']; [discriminate|]. intros H. exists fuel'. split; [reflexivity|].
  cbn [iterTransactions_from] in H. unfold bind at 1 in H.
  destruct (gen_next net address apiKey limit g n) as [[t1 n1] [[lst|]|e|]];
    try discriminate.
  - unfold bind in H.
    destruct (iterTransactions_from net fuel' address apiKey limit (GenSuspended lst) n1)
      as [[t2 n2] [rest|e|]] eqn:E; try discriminate.
    cbn in H. injection H as <- <- <-. right.
    exists t1, n1, lst, t2, rest. auto.
  - cbn in H. injection H as <- <- <-. now left.
Qed.

Lemma iterTransactions_nonempty (fuel : nat) :
  forall g n tr n' batches,
    iterTransactions_from net fuel address apiKey limit g n = (tr, n', Ok batches) ->
    Forall (fun b => truthy (get_prop b "length") = true) batches.
Proof.
  induction fuel as [|fuel IH]; intros g n tr n' batches H;
    apply iterTransactions_from_Ok in H; destruct H as (fuel' & F & H); [discriminate|].
  injection F as <-.
  destruct H as [->|(t1 & n1 & lst & t2 & rest & G & R & ->)]; constructor.
  - now apply gen_next_yield_nonempty in G.
  - now apply IH in R.
Qed.

Lemma iterTransactions_last (fuel : nat) :
  forall g n tr n' batches,
    iterTransactions_from net fuel address apiKey limit g n = (tr, n', Ok batches) ->
    forall pre b post,
      batches = pre ++ b :: post ->
      opt_get (last_elem b) "txHash" = VUndefined ->
      post = [].
Proof.
  induction fuel as [|fuel IH]; intros g n tr n' batches H pre b post E L;
    apply iterTransactions_from_Ok in H; destruct H as (fuel' & F & H); [discriminate|].
  injection F as <-.
  destruct H as [->|(t1 & n1 & lst & t2 & rest & G & R & ->)].
  - destruct pre; discriminate.
  - destruct pre as [|a pre]; simpl in E; injection E as <- ->.
    + destruct fuel as [|fuel']; [discriminate R|].
      rewrite (iterTransactions_no_hash _ _ _ L) in R. now injection R.
    + now apply (IH _ _ _ _ _ R pre b post).
Qed.

End Paginator.

(** C6. The paginator ends the sequence, yielding nothing, as soon as a
    page comes back empty; and when the last element of the batch it has
    just yielded has no [txHash], resuming it ends the sequence at once,
    without any request, whatever the batch held.  So in the sequence of
    batches it yields every batch is non-empty, and a batch whose last
    element has no [txHash] is the last one. *)
Theorem paginator_stops {rt : Runtime} (net : Network) (address apiKey : string) (limit : Z) :
  (forall g n tr n' r req body,
      gen_next net address apiKey limit g n = (tr, n', r) ->
      In (Net req (HttpOk body)) tr ->
      truthy (get_prop (tx_list body) "length") = false ->
      r = Ok None /\ tr = [Net req (HttpOk body)])
  /\
  (forall lst n,
      opt_get (last_elem lst) "txHash" = VUndefined ->
      gen_next net address apiKey limit (GenSuspended lst) n = ([], n, Ok None) /\
      forall fuel,
        iterTransactions_from net (S fuel) address apiKey limit (GenSuspended lst) n
        = ([], n, Ok []))
  /\
  (forall fuel n tr n' batches,
      iterTransactions net fuel address apiKey limit n = (tr, n', Ok batches) ->
      Forall (fun b => truthy (get_prop b "length") = true) batches /\
      forall pre b post,
        batches = pre ++ b :: post ->
        opt_get (last_elem b) "txHash" = VUndefined ->
        post = []).
Proof.
  split; [|split].
  - intros g n tr n' r req body H I L. destruct g as [|lst]; simpl in H.
    + now apply (gen_fetch_empty net address apiKey limit VUndefined n tr n').
    + destruct (truthy (opt_get (last_elem lst) "txHash")); simpl in H.
      * now apply (gen_fetch_empty net address apiKey limit
                     (opt_get (last_elem lst) "txHash") n tr n').
      * injection H as <- <- <-. destruct I.
  - intros lst n H. split; [now apply gen_next_no_hash|].
    intros fuel. now apply iterTransactions_no_hash.
  - intros fuel n tr n' batches H. split.
    + now apply (iterTransactions_nonempty net address apiKey limit fuel GenStart n tr n').
    + now apply (iterTransactions_last net address apiKey limit fuel GenStart n tr n').
Qed.

Lemma paginator_stops_witness :
  (Ok (@None value) = Ok None /\
   [Net (ReqTx "addr" "key" 50 (VStr "A")) (HttpOk (tx_body []))]
   = [Net (ReqTx "addr" "key" 50 (VStr "A")) (HttpOk (tx_body []))])
  /\
  (@gen_next plain_runtime net_shared "addr" "key" 50
     (GenSuspended (VArr [tx_entry 300 "P"; VObj [("blockTime", VNum 200)]])) 1%nat
   = ([], 1%nat, Ok None) /\
   forall fuel,
     @iterTransactions_from plain_runtime net_shared (S fuel) "addr" "key" 50
       (GenSuspended (VArr [tx_entry 300 "P"; VObj [("blockTime", VNum 200)]])) 1%nat
     = ([], 1%nat, Ok []))
  /\
  (Forall (fun b => truthy (get_prop b "length") = true)
     [VArr [VObj [("blockTime", VNum 100)]]] /\
   forall pre b post,
     [VArr [VObj [("blockTime", VNum 100)]]] = pre ++ b :: post ->
     opt_get (@last_elem plain_runtime b) "txHash" = VUndefined ->
     post = []).
Proof.
  split; [|split].
  - apply (proj1 (@paginator_stops plain_runtime net_shared "addr" "key" 50)
             (GenSuspended (VArr [tx_entry 100 "A"])) 2%nat
             [Net (ReqTx "addr" "key" 50 (VStr "A")) (HttpOk (tx_body []))] 3%nat (Ok None)
             (ReqTx "addr" "key" 50 (VStr "A")) (tx_body [])).
    + reflexivity.
    + left. reflexivity.
    + reflexivity.
  - apply (proj1 (proj2 (@paginator_stops plain_runtime net_shared "addr" "key" 50))).
    reflexivity.
  - apply (proj2 (proj2 (@paginator_stops plain_runtime net_eleven "addr" "key" 50))
             5%nat 0%nat
             [Net (ReqTx "addr" "key" 50 VUndefined)
                (HttpOk (tx_body [VObj [("blockTime", VNum 100)]]))]
             1%nat).
    reflexivity.
Defined.

(** ** The lenient cap *)

Section LenientCap.
Context {rt : Runtime}.
Variable cfg : Config.
Variable net : Network.

Local Abbreviation dfilter := (date_filter (startEpoch cfg) (endEpoch cfg)).

Lemma len_app (l1 l2 : list Row) : len (l1 ++ l2) = len l1 + len l2.
Proof. unfold len. rewrite length_app. lia. Qed.






End LenientCap.




(** ** Progress *)

(** C3: the run on which the reported progress goes back.  The
    balance-change phase reports up to [64] on its eleventh page; the
    first batch of the crawl then reports [60]; the run succeeds. *)
Lemma progress_goes_back_on_phase_change :
  succeeded (final_state initial_state (@run plain_runtime cfg_dates net_eleven 20)) /\
  progress_values (trace_of (@run plain_runtime cfg_dates net_eleven 20))
    = [5; 24; 28; 32; 36; 40; 44; 48; 52; 56; 60; 64; 60; 100].
Proof. split; reflexivity. Qed.

(** The value [100] is reported exactly by the runs that succeed. *)
Lemma progress_100_iff_succeeded {rt : Runtime} (cfg : Config) (net : Network) (fuel : nat)
    (st : State) :
  In 100 (progress_values (trace_of (run cfg net fuel)))
  <-> succeeded (final_state st (run cfg net fuel)).
Proof.
  destruct (fetchAll_sound cfg net fuel) as (en & R & _).
  unfold final_state, succeeded.
  remember (trace_of (run cfg net fuel)) as tr eqn:Etr. clear Etr.
  pose proof (fetch_run_status cfg net _ _ st R) as S.
  apply fetch_run_shape in R.
  assert (K : forall t, Forall inner_event t -> ~ In 100 (progress_values (prologue ++ t))).
  { intros t Ht [H|H]; [discriminate|].
    apply inner_progress in Ht. rewrite Forall_forall in Ht. apply Ht in H. lia. }
  unfold progress_values in *.
  destruct en as [|e|].
  - destruct R as (t & -> & _). split; [intros _; exact S|intros _].
    rewrite flat_map_app. apply in_or_app. right. simpl. auto.
  - rewrite S. split; [|discriminate]. intros H. exfalso.
    destruct R as [->|(t & -> & Ht)]; [destruct H|].
    rewrite flat_map_app in H. apply in_app_or in H. destruct H as [H|[]].
    now apply (K t Ht).
  - destruct R as (t & -> & Ht). split.
    + intros H. exfalso. now apply (K t Ht).
    + intros H. rewrite H in S. contradiction.
Qed.

(** Within a phase the reported progress never goes back: the values of
    the balance-change loop and those of the crawl are each in
    non-decreasing order. *)
Section ProgressWithinPhase.
Context {rt : Runtime}.
Variable cfg : Config.
Variable net : Network.

Lemma tx_progress_mono (a b : Z) : a <= b -> tx_progress cfg a <= tx_progress cfg b.
Proof.
  intros H. unfold tx_progress, round_share.
  apply Z.min_le_compat_l, Zplus_le_compat_l, Z.div_le_mono; lia.
Qed.

Lemma progress_balance_turn req res page (o : list Row) (rest : list event) :
  progress_values (Net req res :: balance_reports page o ++ rest)
  = Z.min 80 (20 + page * 4) :: progress_values rest.
Proof. reflexivity. Qed.

Lemma progress_tx_turn (t1 : list event) (o : list Row) (rest : list event) :
  progress_values t1 = [] ->
  progress_values (t1 ++ tx_reports cfg o ++ rest)
  = tx_progress cfg (len o) :: progress_values rest.
Proof.
  intros H. unfold progress_values in *. now rewrite flat_map_app, H.
Qed.

Lemma next_run_progress g n t1 n1 r :
  next_run cfg net g n t1 n1 r -> progress_values t1 = [].
Proof. inversion 1; reflexivity. Qed.

Lemma sorted_cons (a : Z) (l : list Z) (b : Z) :
  a <= b -> StronglySorted Z.le l -> Forall (fun p => b <= p) l ->
  StronglySorted Z.le (b :: l) /\ Forall (fun p => a <= p) (b :: l).
Proof.
  intros H S F. split; constructor; auto;
    revert F; apply Forall_impl; intros p; lia.
Qed.

Lemma balance_run_progress from to page out n t n1 r :
  balance_run cfg net from to page out n t n1 r ->
  StronglySorted Z.le (progress_values t) /\
  Forall (fun p => Z.min 80 (20 + page * 4) <= p) (progress_values t).
Proof.
  induction 1 as [page out n|page out n msg E|page out n s E|page out n body E R
                 |page out n body new E R Hstop
                 |page out n body new t2 n2 r E R NE Hcap Hrun IH].
  - split; constructor.
  - split; constructor.
  - split; constructor.
  - split; constructor.
  - rewrite <- (app_nil_r (balance_reports page (out ++ new))), progress_balance_turn.
    apply sorted_cons; [lia|constructor|constructor].
  - destruct IH as [S F].
    change (balance_reports page (out ++ new) ++ Sleep 120 :: t2)
      with (balance_reports page (out ++ new) ++ [Sleep 120] ++ t2).
    rewrite progress_balance_turn.
    apply sorted_cons; [lia|exact S|].
    revert F. apply Forall_impl. intros p. lia.
Qed.

Lemma tx_run_progress g out2 n ct n2 r :
  tx_run cfg net g out2 n ct n2 r ->
  date_filter (startEpoch cfg) (endEpoch cfg) out2 = out2 ->
  StronglySorted Z.le (progress_values ct) /\
  Forall (fun p => tx_progress cfg (len out2) <= p) (progress_values ct).
Proof.
  assert (G : forall o new, date_filter (startEpoch cfg) (endEpoch cfg) o = o ->
                            tx_progress cfg (len o) <= tx_progress cfg (len (filtered cfg o new))).
  { intros o new F. apply tx_progress_mono. rewrite (filtered_split cfg o new F), len_app.
    unfold len. lia. }
  induction 1 as [g out2 n|g out2 n t1 n1 Hn|g out2 n t1 n1 e Hn|g out2 n t1 n1 page Hn R
                 |g out2 n t1 n1 page new Hn R Hcap
                 |g out2 n t1 n1 page new t2 n2 r Hn R Hcap Hrun IH]; intros F;
    try apply next_run_progress in Hn; rewrite ?Hn.
  - split; constructor.
  - split; constructor.
  - split; constructor.
  - split; constructor.
  - rewrite <- (app_nil_r (tx_reports cfg (filtered cfg out2 new))), progress_tx_turn by exact Hn.
    apply sorted_cons; [now apply G|constructor|constructor].
  - destruct (IH (filtered_fixed cfg _ _)) as [S F2].
    rewrite progress_tx_turn by exact Hn.
    apply sorted_cons; [now apply G|exact S|exact F2].
Qed.

End ProgressWithinPhase.

(** ** Termination of the balance-change loop *)

(** Every page that does not stop the loop adds a row, so the loop ends
    within [maxRows + 1] turns: with that much fuel it is never
    [Pending]. *)
Lemma balanceLoop_terminates {rt : Runtime} (cfg : Config) (net : Network) (from to : Z)
    (fuel : nat) :
  forall page out n,
    (Z.to_nat (maxRows cfg - len out) < fuel)%nat ->
    outcome_of (balanceLoop cfg net fuel from to page out n) <> Pending.
Proof.
  induction fuel as [|fuel IH]; intros page out n Hfuel; [lia|].
  simpl. unfold bind at 1, getBalanceChanges, http.
  destruct (net n (ReqBalance (address cfg) (apiKey cfg) from to page 100)) as [msg|st|body];
    try discriminate.
  fold (balance_list body). unfold map_balance, of_option, bind at 1.
  destruct (balance_rows (balance_list body)) as [new|] eqn:R; [|discriminate].
  cbn [ret].
  pose proof (balance_rows_empty _ _ R) as L.
  destruct (truthy (get_prop (balance_list body) "length")) eqn:T; simpl negb; simpl orb;
    [|discriminate].
  destruct (Z.leb_spec (maxRows cfg) (len (out ++ new))) as [Hcap|Hcap]; [discriminate|].
  unfold sleep, emit, bind.
  assert (Hnew : len out + 1 <= len (out ++ new)).
  { rewrite len_app. destruct new; [destruct L as [_ L]; discriminate L; reflexivity|].
    unfold len. simpl List.length. lia. }
  specialize (IH (page + 1) (out ++ new) (S n)).
  destruct (balanceLoop cfg net fuel from to (page + 1) (out ++ new) (S n)) as [[t2 n2] r2].
  unfold outcome_of in *. simpl in *. apply IH. lia.
Qed.

(** * Further properties of the code *)

(** ** The requests of a fetch *)

Lemma flat_map_step {A B} (f : A -> list B) (x : A) (l : list A) :
  flat_map f (x :: l) = f x ++ flat_map f l.
Proof. reflexivity. Qed.

Lemma requests_of_app (t1 t2 : list event) :
  requests_of (t1 ++ t2) = requests_of t1 ++ requests_of t2.
Proof. apply flat_map_app. Qed.

Lemma tx_exchanges_app (t1 t2 : list event) :
  tx_exchanges (t1 ++ t2) = tx_exchanges t1 ++ tx_exchanges t2.
Proof. apply flat_map_app. Qed.

Lemma tx_exchanges_quiet (tr : list event) :
  Forall (fun e => is_tx_request e = false) tr -> tx_exchanges tr = [].
Proof.
  induction 1 as [|e tr He _ IH]; [reflexivity|].
  unfold tx_exchanges in *. rewrite flat_map_step, IH.
  destruct e as [[]| | | | | |]; try reflexivity. discriminate.
Qed.

Section Requests.
Context {rt : Runtime}.
Variable cfg : Config.
Variable net : Network.

Lemma next_run_chain g n t1 n1 r :
  next_run cfg net g n t1 n1 r ->
  match r with
  | Ok (Some page) =>
      exists h body, tx_exchanges t1 = [(h, HttpOk body)] /\ cursor g h /\
                     page = tx_list body /\ nonempty page = true
  | Ok None => tx_exchanges t1 = [] \/
               exists h body, tx_exchanges t1 = [(h, HttpOk body)] /\ cursor g h
  | Throw _ => exists h res, tx_exchanges t1 = [(h, res)] /\ cursor g h /\
                             forall body, res <> HttpOk body
  | Pending => False
  end.
Proof.
  inversion 1; subst.
  - now left.
  - exists h, (Rejected msg). repeat split; auto. discriminate.
  - exists h, (HttpNotOk st). repeat split; auto. discriminate.
  - right. exists h, body. auto.
  - exists h, body. repeat split; auto.
Qed.

Lemma chain_last g h res :
  cursor g h -> chain g [(h, res)].
Proof.
  intros C. constructor; auto. intros body _. split; [now intros []|constructor].
Qed.

Lemma tx_run_chain g out2 n ct n2 r :
  tx_run cfg net g out2 n ct n2 r -> chain g (tx_exchanges ct).
Proof.
  induction 1 as [g out2 n|g out2 n t1 n1 Hn|g out2 n t1 n1 e Hn|g out2 n t1 n1 page Hn R
                 |g out2 n t1 n1 page new Hn R Hcap
                 |g out2 n t1 n1 page new t2 n2 r Hn R Hcap Hrun IH];
    try (apply next_run_chain in Hn).
  - constructor.
  - destruct Hn as [->|(h & body & -> & C)]; [constructor|now apply chain_last].
  - destruct Hn as (h & res & -> & C & _). now apply chain_last.
  - destruct Hn as (h & body & -> & C & _). now apply chain_last.
  - destruct Hn as (h & body & E & C & _). rewrite tx_exchanges_app, E.
    now apply chain_last.
  - destruct Hn as (h & body & E & C & -> & NE).
    rewrite tx_exchanges_app, E.
    change (tx_exchanges (tx_reports cfg (filtered cfg out2 new) ++ Sleep 120 :: t2))
      with (tx_exchanges t2).
    constructor; auto.
    + intros body' [= <-]. auto.
    + intros F. now destruct (F body).
Qed.

End Requests.

Lemma chain_head {rt : Runtime} h res rest :
  chain GenStart ((h, res) :: rest) -> h = VUndefined.
Proof. inversion 1 as [|g h' res' rest' C]; subst. now inversion C. Qed.

Lemma chain_next {rt : Runtime} (pre : list (value * http_result)) :
  forall g h1 body h2 res post,
    chain g (pre ++ (h1, HttpOk body) :: (h2, res) :: post) ->
    h2 = opt_get (last_elem (tx_list body)) "txHash" /\ truthy h2 = true /\
    nonempty (tx_list body) = true.
Proof.
  induction pre as [|[h0 r0] pre IH]; intros g h1 body h2 res post H.
  - simpl in H. inversion H as [|g' h' res' rest' C K F]; subst.
    destruct (K body eq_refl) as [NE K']. specialize (NE ltac:(discriminate)).
    inversion K' as [|g' h' res' rest' C']; subst. inversion C'; subst. auto.
  - simpl in H. inversion H as [|g' h' res' rest' C K F]; subst.
    destruct r0 as [msg|st|body0].
    + destruct pre; discriminate (F ltac:(discriminate)).
    + destruct pre; discriminate (F ltac:(discriminate)).
    + destruct (K body0 eq_refl) as [_ K']. now apply IH in K'.
Qed.

(** The first transaction page is requested without cursor; every later
    one is requested with the [txHash] of the last element of the page
    received just before, which was not empty. *)
Theorem crawl_cursors_chain {rt : Runtime} (cfg : Config) (net : Network) (fuel : nat) :
  (forall h res rest,
      tx_exchanges (trace_of (run cfg net fuel)) = (h, res) :: rest -> h = VUndefined)
  /\
  (forall pre h1 body h2 res post,
      tx_exchanges (trace_of (run cfg net fuel))
        = pre ++ (h1, HttpOk body) :: (h2, res) :: post ->
      h2 = opt_get (last_elem (tx_list body)) "txHash" /\ truthy h2 = true /\
      nonempty (tx_list body) = true).
Proof.
  destruct (fetchAll_sound cfg net fuel) as (en & R & _).
  apply fetch_run_crawl in R.
  destruct R as (pre0 & ct & post0 & n & n2 & r & -> & Hpre & Hpost & T).
  rewrite !tx_exchanges_app, (tx_exchanges_quiet _ Hpre), (tx_exchanges_quiet _ Hpost),
    app_nil_r.
  apply tx_run_chain in T. simpl. split.
  - intros h res rest E. rewrite E in T. now apply chain_head in T.
  - intros pre h1 body h2 res post E. rewrite E in T. now apply chain_next in T.
Qed.

Lemma crawl_cursors_chain_witness :
  VStr "Q" = opt_get (@last_elem plain_runtime (tx_list (tx_body [tx_entry 300 "P"; tx_entry 200 "Q"])))
               "txHash" /\
  truthy (VStr "Q") = true /\
  nonempty (tx_list (tx_body [tx_entry 300 "P"; tx_entry 200 "Q"])) = true.
Proof.
  apply (proj2 (@crawl_cursors_chain plain_runtime (cfg_nodates 3) net_pages 10)
           [] VUndefined (tx_body [tx_entry 300 "P"; tx_entry 200 "Q"]) (VStr "Q")
           (HttpOk (tx_body [tx_entry 300 "P"; tx_entry 200 "Q"])) []).
  reflexivity.
Defined.

Lemma requests_of_silent (e : event) (t : list event) :
  is_request e = false -> requests_of (e :: t) = requests_of t.
Proof. destruct e; try discriminate; reflexivity. Qed.

Lemma seq_pages (f : Z -> request) (page : Z) (k : nat) :
  f page :: map (fun i => f (page + 1 + Z.of_nat i)) (seq 0 k)
  = map (fun i => f (page + Z.of_nat i)) (seq 0 (S k)).
Proof.
  cbn [seq map]. rewrite Z.add_0_r. f_equal.
  rewrite <- seq_shift, map_map. apply map_ext. intros i. f_equal. lia.
Qed.

Section RequestPlan.
Context {rt : Runtime}.
Variable cfg : Config.
Variable net : Network.

Lemma balance_run_requests from to page out n t n1 r :
  balance_run cfg net from to page out n t n1 r ->
  exists k,
    requests_of t = map (fun i => balance_request cfg from to (page + Z.of_nat i)) (seq 0 k) /\
    Z.of_nat k <= Z.max 0 (maxRows cfg - len out) + 1.
Proof.
  induction 1 as [page out n|page out n msg E|page out n s E|page out n body E R
                 |page out n body new E R Hstop
                 |page out n body new t2 n2 r E R NE Hcap Hrun IH].
  - exists 0%nat. split; [reflexivity|lia].
  - exists 1%nat. cbn. rewrite Z.add_0_r. split; [reflexivity|lia].
  - exists 1%nat. cbn. rewrite Z.add_0_r. split; [reflexivity|lia].
  - exists 1%nat. cbn. rewrite Z.add_0_r. split; [reflexivity|lia].
  - exists 1%nat. cbn. rewrite Z.add_0_r. split; [reflexivity|lia].
  - destruct IH as (k & Hk & B). exists (S k). split.
    + rewrite <- seq_pages, <- Hk. reflexivity.
    + assert (L : len out + 1 <= len (out ++ new)).
      { rewrite len_app. destruct new; [contradiction|]. unfold len. simpl List.length. lia. }
      lia.
Qed.

Lemma next_run_requests g n t1 n1 r :
  next_run cfg net g n t1 n1 r ->
  exists cursors, requests_of t1 = map (tx_request cfg) cursors.
Proof.
  inversion 1; subst; first [now exists [] | now exists [h]].
Qed.

Lemma tx_run_requests g out2 n ct n2 r :
  tx_run cfg net g out2 n ct n2 r ->
  exists cursors, requests_of ct = map (tx_request cfg) cursors.
Proof.
  induction 1 as [g out2 n|g out2 n t1 n1 Hn|g out2 n t1 n1 e Hn|g out2 n t1 n1 page Hn R
                 |g out2 n t1 n1 page new Hn R Hcap
                 |g out2 n t1 n1 page new t2 n2 r Hn R Hcap Hrun IH];
    try (apply next_run_requests in Hn; destruct Hn as (c1 & Hn)).
  - now exists [].
  - now exists c1.
  - now exists c1.
  - now exists c1.
  - exists c1. rewrite requests_of_app, Hn. cbn. now rewrite app_nil_r.
  - destruct IH as (c2 & IH). exists (c1 ++ c2).
    rewrite requests_of_app, Hn, map_app. f_equal. exact IH.
Qed.

Lemma phase_run_requests n bt n1 r :
  phase_run cfg net n bt n1 r ->
  exists k,
    requests_of bt
      = map (fun i => balance_request cfg (epoch_or (startEpoch cfg) 0)
                        (epoch_or (endEpoch cfg) (now cfg)) (Z.of_nat i)) (seq 1 k) /\
    (dates_given cfg = false -> k = 0%nat) /\
    Z.of_nat k <= Z.max 0 (maxRows cfg) + 1.
Proof.
  assert (K : forall t n1 r,
             balance_run cfg net (epoch_or (startEpoch cfg) 0) (epoch_or (endEpoch cfg) (now cfg))
               1 [] n t n1 r ->
             exists k,
               requests_of t
               = map (fun i => balance_request cfg (epoch_or (startEpoch cfg) 0)
                                 (epoch_or (endEpoch cfg) (now cfg)) (Z.of_nat i)) (seq 1 k) /\
               Z.of_nat k <= Z.max 0 (maxRows cfg) + 1).
  { intros t m r' H. apply balance_run_requests in H. destruct H as (k & -> & B).
    exists k. split.
    - rewrite <- seq_shift, map_map. apply map_ext. intros i. f_equal. lia.
    - unfold len in B. simpl in B. rewrite Z.sub_0_r in B. exact B. }
  inversion 1 as [D|t n1' out D Hrun|t n1' e D Hrun|t n1' D Hrun]; subst.
  - exists 0%nat. repeat split; [lia].
  - destruct (K _ _ _ Hrun) as (k & E & B). exists k.
    rewrite requests_of_silent, requests_of_app, E by reflexivity.
    cbn. rewrite app_nil_r. repeat split; auto. congruence.
  - destruct (K _ _ _ Hrun) as (k & E & B). exists k.
    rewrite requests_of_silent, E by reflexivity. repeat split; auto. congruence.
  - destruct (K _ _ _ Hrun) as (k & E & B). exists k.
    rewrite requests_of_silent, E by reflexivity. repeat split; auto. congruence.
Qed.

Lemma requests_of_prologue d res (mid : list event) :
  requests_of (prologue ++ Net d res :: mid) = d :: requests_of mid.
Proof. reflexivity. Qed.

Lemma fetch_run_requests tr en :
  fetch_run cfg net tr en ->
  requests_of tr = [] \/
  exists k cursors,
    requests_of tr
      = detail_request cfg
          :: map (fun i => balance_request cfg (epoch_or (startEpoch cfg) 0)
                             (epoch_or (endEpoch cfg) (now cfg)) (Z.of_nat i)) (seq 1 k)
          ++ map (tx_request cfg) cursors /\
    (dates_given cfg = false -> k = 0%nat) /\
    Z.of_nat k <= Z.max 0 (maxRows cfg) + 1.
Proof.
  destruct 1 as [K|K A|msg V E|s V E|detail bt n1 e V E P|detail bt n1 V E P
                |detail bt n1 ct n2 out2 V E P T|detail bt n1 ct n2 e V E P T
                |detail bt n1 ct n2 V E P T];
    try (now left);
    try (right; exists 0%nat, []; rewrite requests_of_prologue;
         split; [reflexivity|split; [reflexivity|lia]]);
    right;
    try (apply phase_run_requests in P; destruct P as (k & Hk & D & B));
    try (apply tx_run_requests in T; destruct T as (cs & Hc)).
  - exists k, []. rewrite requests_of_prologue, requests_of_silent, requests_of_app, Hk
      by reflexivity. repeat split; auto.
  - exists k, []. rewrite requests_of_prologue, requests_of_silent, Hk by reflexivity.
    rewrite app_nil_r. repeat split; auto.
  - exists k, cs.
    rewrite requests_of_prologue, requests_of_silent, !requests_of_app, Hk, Hc by reflexivity.
    cbn. rewrite app_nil_r. repeat split; auto.
  - exists k, cs.
    rewrite requests_of_prologue, requests_of_silent, !requests_of_app, Hk, Hc by reflexivity.
    cbn. rewrite app_nil_r. repeat split; auto.
  - exists k, cs.
    rewrite requests_of_prologue, requests_of_silent, !requests_of_app, Hk, Hc by reflexivity.
    repeat split; auto.
Qed.

End RequestPlan.

(** The requests of a fetch, in order: none at all, or the account detail
    first, then balance-change pages [1], [2], ..., [k] with the same time
    range and page size 100, then the transaction pages with limit 50, all
    for the configured address and key.  No balance-change page is
    requested when no date is given, and never more than [maxRows + 1] of
    them. *)
Theorem request_plan {rt : Runtime} (cfg : Config) (net : Network) (fuel : nat) :
  requests_of (trace_of (run cfg net fuel)) = [] \/
  exists k cursors,
    requests_of (trace_of (run cfg net fuel))
      = ReqDetail (address cfg) (apiKey cfg)
          :: map (fun i => ReqBalance (address cfg) (apiKey cfg)
                             (epoch_or (startEpoch cfg) 0) (epoch_or (endEpoch cfg) (now cfg))
                             (Z.of_nat i) 100) (seq 1 k)
          ++ map (fun h => ReqTx (address cfg) (apiKey cfg) 50 h) cursors /\
    (epoch_truthy (startEpoch cfg) || epoch_truthy (endEpoch cfg) = false -> k = 0%nat) /\
    Z.of_nat k <= Z.max 0 (maxRows cfg) + 1.
Proof.
  destruct (fetchAll_sound cfg net fuel) as (en & R & _).
  now apply fetch_run_requests in R.
Qed.

(** ** A failed request ends the fetch *)

Lemma first_failure_app (t1 t2 : list event) :
  first_failure (t1 ++ t2)
  = match first_failure t1 with
    | Some (e, post) => Some (e, post ++ t2)
    | None => first_failure t2
    end.
Proof.
  induction t1 as [|ev t1 IH]; [reflexivity|].
  destruct ev as [req res| | | | | |]; simpl; auto.
  destruct (error_of req res); auto.
Qed.

Section FailedRequest.
Context {rt : Runtime}.
Variable cfg : Config.
Variable net : Network.

Lemma balance_run_failure from to page out n t n1 r :
  balance_run cfg net from to page out n t n1 r -> stops_at_failure t r.
Proof.
  induction 1 as [page out n|page out n msg E|page out n s E|page out n body E R
                 |page out n body new E R Hstop
                 |page out n body new t2 n2 r E R NE Hcap Hrun IH].
  - now left.
  - right. exists (ErrRejected msg). now split.
  - right. exists (ErrBalanceChanges s). now split.
  - now left.
  - now left.
  - exact IH.
Qed.

Lemma next_run_failure g n t1 n1 r :
  next_run cfg net g n t1 n1 r -> stops_at_failure t1 r.
Proof.
  inversion 1; subst; try (now left).
  - right. exists (ErrRejected msg). now split.
  - right. exists (ErrTransactions st). now split.
Qed.

Lemma next_run_no_failure g n t1 n1 (v : option value) :
  next_run cfg net g n t1 n1 (Ok v) -> first_failure t1 = None.
Proof.
  intros H. apply next_run_failure in H. destruct H as [H|(e & _ & H)]; [exact H|discriminate].
Qed.

Lemma tx_run_failure g out2 n ct n2 r :
  tx_run cfg net g out2 n ct n2 r -> stops_at_failure ct r.
Proof.
  induction 1 as [g out2 n|g out2 n t1 n1 Hn|g out2 n t1 n1 e Hn|g out2 n t1 n1 page Hn R
                 |g out2 n t1 n1 page new Hn R Hcap
                 |g out2 n t1 n1 page new t2 n2 r Hn R Hcap Hrun IH].
  - now left.
  - left. now apply next_run_no_failure in Hn.
  - apply next_run_failure in Hn. destruct Hn as [N|(e0 & F & [= <-])]; [now left|].
    right. exists e. now split.
  - left. now apply next_run_no_failure in Hn.
  - left. rewrite first_failure_app, (next_run_no_failure _ _ _ _ _ Hn). reflexivity.
  - unfold stops_at_failure.
    rewrite first_failure_app, (next_run_no_failure _ _ _ _ _ Hn). exact IH.
Qed.

Lemma phase_run_failure n bt n1 r :
  phase_run cfg net n bt n1 r -> stops_at_failure bt r.
Proof.
  inversion 1 as [D|t n1' out D Hrun|t n1' e D Hrun|t n1' D Hrun]; subst;
    try apply balance_run_failure in Hrun.
  - now left.
  - left. destruct Hrun as [N|(e & _ & F)]; [|discriminate].
    cbn [first_failure]. now rewrite first_failure_app, N.
  - destruct Hrun as [N|(e0 & F & [= <-])]; [now left|].
    right. exists e. now split.
  - destruct Hrun as [N|(e0 & _ & F)]; [now left|discriminate].
Qed.

Lemma first_failure_prologue d res (mid : list event) :
  first_failure (prologue ++ Net d res :: mid)
  = match error_of d res with Some e => Some (e, mid) | None => first_failure mid end.
Proof. reflexivity. Qed.

Lemma fetch_run_failure tr en e post :
  fetch_run cfg net tr en ->
  first_failure tr = Some (e, post) ->
  post = failure e /\ en = Failed e.
Proof.
  destruct 1 as [K|K A|msg V E|s V E|detail bt n1 e' V E P|detail bt n1 V E P
                |detail bt n1 ct n2 out2 V E P T|detail bt n1 ct n2 e' V E P T
                |detail bt n1 ct n2 V E P T];
    try discriminate;
    rewrite first_failure_prologue; cbn [error_of detail_request first_failure];
    try (intros [= <- <-]; now split);
    try apply phase_run_failure in P; try apply tx_run_failure in T;
    rewrite ?first_failure_app.
  - destruct P as [N|(e0 & -> & [= <-])]; [now rewrite N|].
    intros [= <- <-]. now split.
  - destruct P as [N|(e0 & _ & F)]; [now rewrite N|discriminate].
  - destruct P as [N|(e0 & _ & F)]; [rewrite N|discriminate].
    destruct T as [N'|(e0 & _ & F)]; [now rewrite N'|discriminate].
  - destruct P as [N|(e0 & _ & F)]; [rewrite N|discriminate].
    destruct T as [N'|(e0 & -> & [= <-])]; [now rewrite N'|].
    intros [= <- <-]. now split.
  - destruct P as [N|(e0 & _ & F)]; [rewrite N|discriminate].
    destruct T as [N'|(e0 & _ & F)]; [now rewrite N'|discriminate].
Qed.

End FailedRequest.

(** No request is retried and none follows a failed one: after the first
    exchange that is rejected or answered with a status that is not ok,
    the trace holds the failure report of that very error and nothing
    else, and the fetch has failed with it. *)
Theorem failed_request_aborts {rt : Runtime} (cfg : Config) (net : Network) (fuel : nat)
    (st : State) (e : exn) (post : list event) :
  first_failure (trace_of (run cfg net fuel)) = Some (e, post) ->
  post = [SetStatus (StFailed e); SetLoading false] /\
  failed_with e (final_state st (run cfg net fuel)).
Proof.
  intros F. destruct (fetchAll_sound cfg net fuel) as (en & R & _).
  destruct (fetch_run_failure cfg net _ _ _ _ R F) as [-> ->].
  split; [reflexivity|]. exact (fetch_run_status cfg net _ _ st R).
Qed.

Lemma failed_request_aborts_witness :
  [SetStatus (StFailed (ErrTransactions 500)); SetLoading false]
  = [SetStatus (StFailed (ErrTransactions 500)); SetLoading false] /\
  failed_with (ErrTransactions 500)
    (final_state initial_state (@run plain_runtime (cfg_nodates 20000) net_fails 10)).
Proof.
  apply (@failed_request_aborts plain_runtime (cfg_nodates 20000) net_fails 10 initial_state).
  reflexivity.
Defined.

(** ** The state a fetch leaves *)

Section Inside.
Context {rt : Runtime}.
Variable cfg : Config.
Variable net : Network.

Lemma round_share_nonneg (n : Z) : 0 <= n -> 0 <= round_share cfg n.
Proof. intros H. unfold round_share. apply Z.div_pos; lia. Qed.

Lemma tx_progress_bounds (rs : list Row) : 60 <= tx_progress cfg (len rs) <= 95.
Proof.
  pose proof (round_share_nonneg (len rs) ltac:(unfold len; lia)).
  unfold tx_progress. lia.
Qed.

Lemma next_run_inside g n t1 n1 r :
  next_run cfg net g n t1 n1 r -> Forall inside_event t1.
Proof. inversion 1; subst; repeat constructor. Qed.

Lemma tx_run_inside g out2 n ct n2 r :
  tx_run cfg net g out2 n ct n2 r -> Forall inside_event ct.
Proof.
  induction 1 as [g out2 n|g out2 n t1 n1 Hn|g out2 n t1 n1 e Hn|g out2 n t1 n1 page Hn R
                 |g out2 n t1 n1 page new Hn R Hcap
                 |g out2 n t1 n1 page new t2 n2 r Hn R Hcap Hrun IH];
    try apply next_run_inside in Hn; auto.
  - apply Forall_app. split; [assumption|].
    pose proof (tx_progress_bounds (filtered cfg out2 new)).
    repeat constructor; lia.
  - apply Forall_app. split; [assumption|].
    pose proof (tx_progress_bounds (filtered cfg out2 new)).
    repeat constructor; try lia. assumption.
Qed.

Lemma balance_run_inside from to page out n t n1 r :
  balance_run cfg net from to page out n t n1 r -> 1 <= page -> Forall inside_event t.
Proof.
  induction 1 as [page out n|page out n msg E|page out n s E|page out n body E R
                 |page out n body new E R Hstop
                 |page out n body new t2 n2 r E R NE Hcap Hrun IH]; intros P;
    repeat constructor; try lia.
  apply IH. lia.
Qed.

Lemma phase_run_inside n bt n1 r :
  phase_run cfg net n bt n1 r -> Forall inside_event bt.
Proof.
  inversion 1 as [D|t n1' out D Hrun|t n1' e D Hrun|t n1' D Hrun]; subst;
    try (apply balance_run_inside in Hrun; [|lia]).
  - constructor.
  - constructor; [exact I|]. apply Forall_app. split; [assumption|]. repeat constructor.
  - constructor; [exact I|assumption].
  - constructor; [exact I|assumption].
Qed.

(** A fetch that passed the validation: the prologue, the account-detail
    exchange, the account summary when the exchange succeeded, the two
    phases, and the end. *)
Lemma fetch_run_inside tr en :
  fetch_run cfg net tr en -> valid cfg ->
  exists t,
    tr = prologue ++ Net (detail_request cfg) (net 0%nat (detail_request cfg))
           :: acct_events (net 0%nat (detail_request cfg)) ++ t ++ ending_events en /\
    Forall inside_event t.
Proof.
  destruct 1 as [K|K A|msg V E|s V E|detail bt n1 e V E P|detail bt n1 V E P
                |detail bt n1 ct n2 out2 V E P T|detail bt n1 ct n2 e V E P T
                |detail bt n1 ct n2 V E P T]; intros [VK VA];
    try contradiction; rewrite E;
    try apply phase_run_inside in P; try apply tx_run_inside in T.
  - exists []. split; [reflexivity|constructor].
  - exists []. split; [reflexivity|constructor].
  - exists bt. split; [reflexivity|assumption].
  - exists bt. split; [now rewrite app_nil_r|assumption].
  - exists (bt ++ ct). split; [assoc_eq|]. apply Forall_app. auto.
  - exists (bt ++ ct). split; [assoc_eq|]. apply Forall_app. auto.
  - exists (bt ++ ct). split; [assoc_eq|]. apply Forall_app. auto.
Qed.

End Inside.

Lemma replay_inside (t : list event) :
  Forall inside_event t ->
  forall st, loading (replay st t) = loading st /\ acct (replay st t) = acct st.
Proof.
  induction 1 as [|e t He _ IH]; intros st; [now split|].
  rewrite replay_cons. destruct (IH (apply_event st e)) as [-> ->].
  destruct e; simpl in *; auto; contradiction.
Qed.

Lemma inside_progress (t : list event) :
  Forall inside_event t -> Forall (fun p => 24 <= p <= 95) (progress_values t).
Proof.
  induction 1 as [|e t He _ IH]; [constructor|].
  unfold progress_values in *. rewrite flat_map_step.
  destruct e; simpl in *; auto.
Qed.

Lemma loading_ending (st : State) (en : ending) :
  loading (replay st (ending_events en))
  = match en with Running => loading st | _ => false end.
Proof. destruct en; reflexivity. Qed.

Lemma loading_after_inside (st : State) d res (t : list event) (en : ending) :
  Forall inside_event t ->
  loading (replay st (prologue ++ Net d res :: acct_events res ++ t ++ ending_events en))
  = match en with Running => true | _ => false end.
Proof.
  intros Ft. rewrite replay_app, replay_cons, !replay_app, loading_ending.
  rewrite (proj1 (replay_inside t Ft _)).
  destruct res, en; reflexivity.
Qed.

(** A fetch that has ended, by success or by failure, leaves [loading]
    false; one that is still running has it true. *)
Theorem loading_tells_running {rt : Runtime} (cfg : Config) (net : Network) (fuel : nat)
    (st : State) :
  loading (final_state st (run cfg net fuel))
  = match outcome_of (run cfg net fuel) with Pending => true | _ => false end.
Proof.
  destruct (fetchAll_sound cfg net fuel) as (en & R & PR).
  unfold final_state.
  assert (L : loading (replay st (trace_of (run cfg net fuel)))
              = match en with Running => true | _ => false end).
  { remember (trace_of (run cfg net fuel)) as tr eqn:Etr. clear Etr PR.
    assert (V : valid cfg \/ exists e, tr = failure e /\ en = Failed e).
    { destruct R; eauto. }
    destruct V as [V|(e & -> & ->)]; [|reflexivity].
    destruct (fetch_run_inside cfg net _ _ R V) as (t & -> & Ft).
    now apply loading_after_inside. }
  rewrite L. destruct (outcome_of (run cfg net fuel)) as [[]| |] eqn:O.
  - destruct en; try reflexivity. destruct PR as [_ PR]. discriminate (PR eq_refl).
  - destruct en; try reflexivity. destruct PR as [_ PR]. discriminate (PR eq_refl).
  - destruct PR as [PR _]. now rewrite (PR eq_refl).
Qed.

(** Every progress value a fetch reports lies between 5 and 100. *)
Theorem progress_is_percentage {rt : Runtime} (cfg : Config) (net : Network) (fuel : nat) :
  Forall (fun p => 5 <= p <= 100) (progress_values (trace_of (run cfg net fuel))).
Proof.
  destruct (fetchAll_sound cfg net fuel) as (en & R & _).
  remember (trace_of (run cfg net fuel)) as tr eqn:Etr. clear Etr.
  assert (V : valid cfg \/ exists e, tr = failure e).
  { destruct R; eauto. }
  destruct V as [V|(e & ->)]; [|constructor].
  destruct (fetch_run_inside cfg net _ _ R V) as (t & -> & Ft).
  apply inside_progress in Ft. unfold progress_values in *.
  rewrite flat_map_app, flat_map_step, !flat_map_app, !Forall_app.
  split; [repeat constructor; lia|].
  split; [constructor|].
  split; [destruct (net 0%nat (detail_request cfg)); constructor|].
  split; [revert Ft; apply Forall_impl; intros p; lia|].
  destruct en; repeat constructor; lia.
Qed.

Lemma same_but_acct_replay (tr : list event) :
  forall s s', same_but_acct s s' -> same_but_acct (replay s tr) (replay s' tr).
Proof.
  induction tr as [|e tr IH]; intros s s' H; [exact H|].
  rewrite !replay_cons. apply IH.
  destruct H as (H1 & H2 & H3 & H4). destruct e; simpl; repeat split; auto.
Qed.

(** A fetch that passes the validation starts from scratch: the rows, the
    status, the progress and the loading flag it leaves do not depend on
    the state it was invoked in. *)
Theorem fetch_replaces_state {rt : Runtime} (cfg : Config) (net : Network) (fuel : nat)
    (st st' : State) :
  apiKey cfg <> "" -> address cfg <> "" ->
  rows (final_state st (run cfg net fuel)) = rows (final_state st' (run cfg net fuel)) /\
  status (final_state st (run cfg net fuel)) = status (final_state st' (run cfg net fuel)) /\
  progress (final_state st (run cfg net fuel)) = progress (final_state st' (run cfg net fuel)) /\
  loading (final_state st (run cfg net fuel)) = loading (final_state st' (run cfg net fuel)).
Proof.
  intros K A. destruct (fetchAll_sound cfg net fuel) as (en & R & _).
  unfold final_state.
  destruct (fetch_run_inside cfg net _ _ R (conj K A)) as (t & -> & _).
  rewrite !(replay_app _ prologue).
  match goal with |- context [replay (replay st prologue) ?rest] =>
    destruct (same_but_acct_replay rest (replay st prologue) (replay st' prologue))
      as (H1 & H2 & H3 & H4)
  end; [repeat split|auto].
Qed.

Lemma fetch_replaces_state_witness :
  rows (final_state initial_state (@run plain_runtime cfg_dates net_shared 10))
  = rows (final_state (mkState StDone false 100 VNull [row_of 1 "Z"])
            (@run plain_runtime cfg_dates net_shared 10)) /\
  status (final_state initial_state (@run plain_runtime cfg_dates net_shared 10))
  = status (final_state (mkState StDone false 100 VNull [row_of 1 "Z"])
              (@run plain_runtime cfg_dates net_shared 10)) /\
  progress (final_state initial_state (@run plain_runtime cfg_dates net_shared 10))
  = progress (final_state (mkState StDone false 100 VNull [row_of 1 "Z"])
                (@run plain_runtime cfg_dates net_shared 10)) /\
  loading (final_state initial_state (@run plain_runtime cfg_dates net_shared 10))
  = loading (final_state (mkState StDone false 100 VNull [row_of 1 "Z"])
               (@run plain_runtime cfg_dates net_shared 10)).
Proof.
  apply (@fetch_replaces_state plain_runtime cfg_dates net_shared 10); discriminate.
Defined.

Lemma acct_ending (st : State) (en : ending) :
  acct (replay st (ending_events en)) = acct st.
Proof. destruct en; reflexivity. Qed.

(** The account summary a fetch leaves is the [data] of the account-detail
    answer, or [null] when that is falsy.  When the validation or the
    account-detail exchange fails, the summary of the state the fetch was
    invoked in stays, although a failed exchange has already emptied the
    rows. *)
Theorem account_summary {rt : Runtime} (cfg : Config) (net : Network) (fuel : nat)
    (st : State) :
  acct (final_state st (run cfg net fuel))
  = (if (apiKey cfg =? "")%string || (address cfg =? "")%string then acct st
     else match net 0%nat (ReqDetail (address cfg) (apiKey cfg)) with
          | HttpOk detail => js_or (opt_get detail "data") VNull
          | _ => acct st
          end)
  /\
  (apiKey cfg <> "" -> address cfg <> "" ->
   (forall detail, net 0%nat (ReqDetail (address cfg) (apiKey cfg)) <> HttpOk detail) ->
   rows (final_state st (run cfg net fuel)) = []).
Proof.
  destruct (fetchAll_sound cfg net fuel) as (en & R & _).
  unfold final_state.
  remember (trace_of (run cfg net fuel)) as tr eqn:Etr. clear Etr. split.
  - destruct (String.eqb_spec (apiKey cfg) "") as [K|K];
      [|destruct (String.eqb_spec (address cfg) "") as [A|A]]; cbn [orb].
    + destruct R as [K'|K' A'|? [K' _]|? [K' _]|? ? ? ? [K' _]|? ? ? [K' _]
                    |? ? ? ? ? ? [K' _]|? ? ? ? ? ? [K' _]|? ? ? ? ? [K' _]];
        try contradiction; reflexivity.
    + destruct R as [K'|K' A'|? [_ A']|? [_ A']|? ? ? ? [_ A']|? ? ? [_ A']
                    |? ? ? ? ? ? [_ A']|? ? ? ? ? ? [_ A']|? ? ? ? ? [_ A']];
        try contradiction; reflexivity.
    + destruct (fetch_run_inside cfg net _ _ R (conj K A)) as (t & -> & Ft).
      rewrite replay_app, replay_cons, !replay_app, acct_ending.
      rewrite (proj2 (replay_inside t Ft _)).
      unfold detail_request.
      destruct (net 0%nat (ReqDetail (address cfg) (apiKey cfg))); reflexivity.
  - intros K A F.
    destruct R as [K'|K' A'|msg V E|s V E|detail bt n1 e V E P|detail bt n1 V E P
                  |detail bt n1 ct n2 out2 V E P T|detail bt n1 ct n2 e V E P T
                  |detail bt n1 ct n2 V E P T];
      try contradiction; try reflexivity; now destruct (F detail).
Qed.

Lemma account_summary_witness :
  rows (final_state (mkState StDone false 100 VNull [row_of 1 "Z"])
          (@run plain_runtime (cfg_nodates 5) (fun _ _ => HttpNotOk 401) 10)) = [].
Proof.
  apply (proj2 (@account_summary plain_runtime (cfg_nodates 5) (fun _ _ => HttpNotOk 401) 10
                  (mkState StDone false 100 VNull [row_of 1 "Z"])));
    discriminate.
Defined.

(** ** Row sets only grow within a phase *)

Lemma extends_trans (a b c : list Row) : extends a b -> extends b c -> extends a c.
Proof. intros [x ->] [y ->]. exists (x ++ y). now rewrite app_assoc. Qed.

Lemma grows_cons (prev o : list Row) (rest : list (list Row)) :
  extends prev o -> StronglySorted extends rest -> Forall (extends o) rest ->
  StronglySorted extends (o :: rest) /\ Forall (extends prev) (o :: rest).
Proof.
  intros E S F. split; constructor; auto.
  revert F. apply Forall_impl. intros x. now apply extends_trans.
Qed.

Section Growth.
Context {rt : Runtime}.
Variable cfg : Config.
Variable net : Network.

Lemma reports_balance_turn req res page (o : list Row) (rest : list event) :
  rows_reports (Net req res :: balance_reports page o ++ rest) = o :: rows_reports rest.
Proof. reflexivity. Qed.

Lemma reports_tx_turn (t1 : list event) (o : list Row) (rest : list event) :
  rows_reports t1 = [] ->
  rows_reports (t1 ++ tx_reports cfg o ++ rest) = o :: rows_reports rest.
Proof. intros H. unfold rows_reports in *. now rewrite flat_map_app, H. Qed.

Lemma next_run_reports g n t1 n1 r :
  next_run cfg net g n t1 n1 r -> rows_reports t1 = [].
Proof. inversion 1; reflexivity. Qed.

Lemma balance_run_grows from to page out n t n1 r :
  balance_run cfg net from to page out n t n1 r ->
  StronglySorted extends (rows_reports t) /\ Forall (extends out) (rows_reports t).
Proof.
  induction 1 as [page out n|page out n msg E|page out n s E|page out n body E R
                 |page out n body new E R Hstop
                 |page out n body new t2 n2 r E R NE Hcap Hrun IH].
  - split; constructor.
  - split; constructor.
  - split; constructor.
  - split; constructor.
  - rewrite <- (app_nil_r (balance_reports page (out ++ new))), reports_balance_turn.
    apply grows_cons; [now exists new|constructor|constructor].
  - destruct IH as [S F].
    change (balance_reports page (out ++ new) ++ Sleep 120 :: t2)
      with (balance_reports page (out ++ new) ++ [Sleep 120] ++ t2).
    rewrite reports_balance_turn. apply grows_cons; [now exists new|exact S|exact F].
Qed.

Lemma tx_run_grows g out2 n ct n2 r :
  tx_run cfg net g out2 n ct n2 r ->
  date_filter (startEpoch cfg) (endEpoch cfg) out2 = out2 ->
  StronglySorted extends (rows_reports ct) /\
  Forall (extends out2) (rows_reports ct) /\
  Forall (fun rs => date_filter (startEpoch cfg) (endEpoch cfg) rs = rs) (rows_reports ct).
Proof.
  induction 1 as [g out2 n|g out2 n t1 n1 Hn|g out2 n t1 n1 e Hn|g out2 n t1 n1 page Hn R
                 |g out2 n t1 n1 page new Hn R Hcap
                 |g out2 n t1 n1 page new t2 n2 r Hn R Hcap Hrun IH]; intros F;
    try apply next_run_reports in Hn; rewrite ?Hn.
  - repeat split; constructor.
  - repeat split; constructor.
  - repeat split; constructor.
  - repeat split; constructor.
  - rewrite <- (app_nil_r (tx_reports cfg (filtered cfg out2 new))), reports_tx_turn by exact Hn.
    assert (X : extends out2 (filtered cfg out2 new)).
    { rewrite (filtered_split cfg _ _ F). now eexists. }
    destruct (grows_cons out2 _ [] X ltac:(constructor) ltac:(constructor)) as [S1 S2].
    repeat split; auto. constructor; [apply filtered_fixed|constructor].
  - destruct (IH (filtered_fixed cfg _ _)) as (S & F2 & F3).
    rewrite reports_tx_turn by exact Hn.
    assert (X : extends out2 (filtered cfg out2 new)).
    { rewrite (filtered_split cfg _ _ F). now eexists. }
    destruct (grows_cons out2 _ _ X S F2) as [S1 S2].
    repeat split; auto. constructor; [apply filtered_fixed|exact F3].
Qed.

End Growth.

(** Within a phase the reported row sets only grow: every set the
    balance-change loop or the crawl reports is an earlier report of the
    same loop with rows appended, so a row once shown keeps its place; and
    every set the crawl reports is left unchanged by the date filter. *)
Theorem reports_only_grow {rt : Runtime} (cfg : Config) (net : Network) (fuel : nat) :
  (forall from to n t n1 r,
      balanceLoop cfg net fuel from to 1 [] n = (t, n1, r) ->
      StronglySorted extends (rows_reports t))
  /\
  (forall n ct n2 r,
      txLoop cfg net fuel GenStart [] n = (ct, n2, r) ->
      StronglySorted extends (rows_reports ct) /\
      Forall (fun rs => date_filter (startEpoch cfg) (endEpoch cfg) rs = rs) (rows_reports ct)).
Proof.
  split.
  - intros from to n t n1 r H. apply balanceLoop_sound in H.
    now apply balance_run_grows in H.
  - intros n ct n2 r H. apply txLoop_sound in H.
    apply tx_run_grows in H; [|apply date_filter_nil]. tauto.
Qed.

Lemma reports_only_grow_witness :
  StronglySorted extends
    (rows_reports (fst (fst (@txLoop plain_runtime (cfg_nodates 3) net_pages 10 GenStart []
                               1%nat)))) /\
  Forall (fun rs => @date_filter plain_runtime None None rs = rs)
    (rows_reports (fst (fst (@txLoop plain_runtime (cfg_nodates 3) net_pages 10 GenStart []
                               1%nat)))).
Proof.
  apply (proj2 (@reports_only_grow plain_runtime (cfg_nodates 3) net_pages 10) 1%nat _ 3%nat
           (Ok [row_of 300 "P"; row_of 200 "Q"; row_of 300 "P"; row_of 200 "Q"])).
  reflexivity.
Defined.

(** ** Without date bounds the crawl is bounded *)

Section NoDates.
Context {rt : Runtime}.
Variable cfg : Config.
Variable net : Network.
Hypothesis no_dates : dates_given cfg = false.

Lemma date_filter_no_dates (l : list Row) :
  date_filter (startEpoch cfg) (endEpoch cfg) l = l.
Proof.
  unfold dates_given in no_dates. apply orb_false_iff in no_dates.
  destruct no_dates as [S E]. unfold date_filter, filter_end, filter_start.
  now rewrite S, E.
Qed.

Lemma filtered_no_dates (out2 new : list Row) : filtered cfg out2 new = out2 ++ new.
Proof. apply date_filter_no_dates. Qed.

Lemma tx_run_exchanges_bound g out2 n ct n2 r :
  tx_run cfg net g out2 n ct n2 r ->
  Z.of_nat (List.length (tx_exchanges ct)) <= Z.max 0 (maxRows cfg - len out2) + 1.
Proof.
  induction 1 as [g out2 n|g out2 n t1 n1 Hn|g out2 n t1 n1 e Hn|g out2 n t1 n1 page Hn R
                 |g out2 n t1 n1 page new Hn R Hcap
                 |g out2 n t1 n1 page new t2 n2 r Hn R Hcap Hrun IH];
    try (pose proof (next_run_yield cfg net _ _ _ _ _ Hn) as (h0 & body0 & _ & Ep & L));
    try apply next_run_chain in Hn.
  - simpl. lia.
  - destruct Hn as [->|(h & body & -> & _)]; simpl; lia.
  - destruct Hn as (h & res & -> & _). simpl. lia.
  - destruct Hn as (h & body & -> & _). simpl. lia.
  - destruct Hn as (h & body & E & _). rewrite tx_exchanges_app, E. simpl. lia.
  - destruct Hn as (h & body & E & _). rewrite tx_exchanges_app, E.
    change (tx_exchanges (tx_reports cfg (filtered cfg out2 new) ++ Sleep 120 :: t2))
      with (tx_exchanges t2).
    rewrite filtered_no_dates in *.
    apply tx_rows_elems in R. destruct R as [-> NE]. specialize (NE L).
    assert (G : len out2 + 1 <= len (out2 ++ map normalizeTx (elems_or_nil page))).
    { rewrite len_app. destruct (elems_or_nil page); [contradiction|].
      unfold len. simpl List.length. lia. }
    simpl List.length. lia.
Qed.

Lemma txLoop_terminates (fuel : nat) :
  forall g out2 n,
    (Z.to_nat (maxRows cfg - len out2) < fuel)%nat ->
    outcome_of (txLoop cfg net fuel g out2 n) <> Pending.
Proof.
  induction fuel as [|fuel IH]; intros g out2 n Hfuel; [lia|].
  simpl. unfold bind at 1.
  destruct (gen_next net (address cfg) (apiKey cfg) 50 g n) as [[t1 n1] [[page|]|e|]] eqn:E;
    try discriminate.
  - pose proof (gen_next_yield_nonempty _ _ _ _ _ _ _ _ _ E) as L.
    unfold push_tx, of_option, bind at 1.
    destruct (tx_rows page) as [new|] eqn:R; [|discriminate].
    cbn [ret]. fold (filtered cfg out2 new). rewrite filtered_no_dates.
    destruct (Z.leb_spec (maxRows cfg) (len (out2 ++ new))) as [Hcap|Hcap]; [discriminate|].
    unfold sleep, emit, bind.
    apply tx_rows_elems in R. destruct R as [-> NE]. specialize (NE L).
    assert (G : len out2 + 1 <= len (out2 ++ map normalizeTx (elems_or_nil page))).
    { rewrite len_app. destruct (elems_or_nil page); [contradiction|].
      unfold len. simpl List.length. lia. }
    specialize (IH (GenSuspended page) (out2 ++ map normalizeTx (elems_or_nil page)) n1).
    destruct (txLoop cfg net fuel (GenSuspended page)
                (out2 ++ map normalizeTx (elems_or_nil page)) n1) as [[t2 n2] r2].
    unfold outcome_of in *. simpl in *. apply IH. lia.
  - apply gen_next_sound in E. inversion E.
Qed.

End NoDates.

Lemma bind_pending {A B} (m : M A) (f : A -> M B) (n : nat) :
  outcome_of (bind m f n) = Pending ->
  outcome_of (m n) = Pending \/
  exists t1 n1 a, m n = (t1, n1, Ok a) /\ outcome_of (f a n1) = Pending.
Proof.
  unfold bind. destruct (m n) as [[t1 n1] [a|e|]]; try discriminate; [|now left].
  intros H. right. exists t1, n1, a. split; [reflexivity|].
  destruct (f a n1) as [[t2 n2] r]. exact H.
Qed.

Lemma emit_pending {B} (e : event) (k : M B) (n : nat) :
  outcome_of (bind (emit e) (fun _ => k) n) = Pending -> outcome_of (k n) = Pending.
Proof.
  intros H. apply bind_pending in H. destruct H as [H|(t1 & n1 & a & [= <- <- <-] & H)];
    [discriminate|exact H].
Qed.

Section Finishing.
Context {rt : Runtime}.
Variable cfg : Config.
Variable net : Network.

(** A fetch is still running only inside one of its two loops. *)
Lemma fetchAll_pending (fuel : nat) :
  outcome_of (run cfg net fuel) = Pending ->
  (dates_given cfg = true /\
   exists n, outcome_of (balanceLoop cfg net fuel (epoch_or (startEpoch cfg) 0)
                           (epoch_or (endEpoch cfg) (now cfg)) 1 [] n) = Pending)
  \/ exists n, outcome_of (txLoop cfg net fuel GenStart [] n) = Pending.
Proof.
  unfold run, fetchAll, try_catch_finally. intros H.
  assert (B : outcome_of (fetchAll_body cfg net fuel 0%nat) = Pending).
  { destruct (fetchAll_body cfg net fuel 0%nat) as [[t1 n1] [[]|e|]];
      try discriminate; reflexivity. }
  clear H. unfold fetchAll_body in B.
  destruct (apiKey cfg =? "")%string; [discriminate|].
  destruct (address cfg =? "")%string; [discriminate|].
  do 4 apply emit_pending in B.
  apply bind_pending in B. destruct B as [B|(t1 & n1 & detail & _ & B)].
  { unfold getAccountDetail, http, outcome_of in B. simpl in B.
    destruct (net 0%nat (ReqDetail (address cfg) (apiKey cfg))); discriminate. }
  apply emit_pending in B.
  apply bind_pending in B. destruct B as [B|(t2 & n2 & [] & _ & B)].
  - left. unfold balancePhase in B. fold (dates_given cfg) in B.
    destruct (dates_given cfg); [|discriminate]. split; [reflexivity|].
    apply emit_pending in B. apply bind_pending in B.
    destruct B as [B|(t3 & n3 & out & _ & B)]; [now exists n1|discriminate].
  - right. apply bind_pending in B.
    destruct B as [B|(t3 & n3 & out2 & _ & B)]; [now exists n2|discriminate].
Qed.

End Finishing.

(** When no date is given the crawl adds at least one row per page, so a
    cap bounds it: the fetch requests at most [maxRows + 1] transaction
    pages, and with fuel for that many turns it is never left running. *)
Theorem crawl_without_dates_is_bounded {rt : Runtime} (cfg : Config) (net : Network)
    (fuel : nat) :
  epoch_truthy (startEpoch cfg) || epoch_truthy (endEpoch cfg) = false ->
  Z.of_nat (List.length (tx_exchanges (trace_of (run cfg net fuel))))
    <= Z.max 0 (maxRows cfg) + 1
  /\
  ((Z.to_nat (maxRows cfg) < fuel)%nat -> outcome_of (run cfg net fuel) <> Pending).
Proof.
  intros D. split.
  - destruct (fetchAll_sound cfg net fuel) as (en & R & _).
    apply fetch_run_crawl in R.
    destruct R as (pre0 & ct & post0 & n & n2 & r & -> & Hpre & Hpost & T).
    rewrite !tx_exchanges_app, (tx_exchanges_quiet _ Hpre), (tx_exchanges_quiet _ Hpost),
      app_nil_r.
    apply (tx_run_exchanges_bound cfg net D) in T. simpl app.
    unfold len in T. simpl in T. rewrite Z.sub_0_r in T. exact T.
  - intros F P. apply fetchAll_pending in P. destruct P as [[D' _]|(n & P)].
    + unfold dates_given in D'. congruence.
    + revert P. apply (txLoop_terminates cfg net D).
      unfold len. simpl. rewrite Z.sub_0_r. exact F.
Qed.

Lemma crawl_without_dates_is_bounded_witness :
  Z.of_nat (List.length (tx_exchanges (trace_of (@run plain_runtime (cfg_nodates 3) net_pages 10))))
    <= Z.max 0 (maxRows (cfg_nodates 3)) + 1
  /\
  ((Z.to_nat (maxRows (cfg_nodates 3)) < 10)%nat ->
   outcome_of (@run plain_runtime (cfg_nodates 3) net_pages 10) <> Pending).
Proof.
  apply (@crawl_without_dates_is_bounded plain_runtime (cfg_nodates 3) net_pages 10).
  reflexivity.
Defined.

(** ** The chart data *)

Lemma ltb_total (a b : string) : String.ltb a b = false -> a <> b -> String.ltb b a = true.
Proof.
  unfold String.ltb. intros H N. rewrite String.compare_antisym.
  destruct (String.compare a b) eqn:C; try discriminate; [|reflexivity].
  now apply String.compare_eq_iff in C.
Qed.

Lemma count_of_bump (d d' : string) (m : list (string * Z)) :
  count_of d' (bump d m) = count_of d' m + (if (d =? d')%string then 1 else 0).
Proof.
  unfold count_of. induction m as [|[k c] m IH]; simpl.
  - destruct (String.eqb_spec d d'); simpl; lia.
  - destruct (String.eqb_spec k d) as [->|Hk]; simpl.
    + destruct (String.eqb_spec d d'); simpl; lia.
    + destruct (String.eqb_spec k d') as [->|Hk'].
      * destruct (String.eqb_spec d d'); [congruence|lia].
      * exact IH.
Qed.

Lemma bump_keys (d : string) (m : list (string * Z)) :
  map fst (bump d m) = map fst m \/
  (~ In d (map fst m) /\ map fst (bump d m) = map fst m ++ [d]).
Proof.
  induction m as [|[k c] m IH]; simpl.
  - right. split; [tauto|reflexivity].
  - destruct (String.eqb_spec k d) as [->|Hk]; simpl; [now left|].
    destruct IH as [->|[N ->]]; [now left|right].
    split; [intros [H|H]; [contradiction|tauto]|reflexivity].
Qed.

Lemma bump_nodup (d : string) (m : list (string * Z)) :
  NoDup (map fst m) -> NoDup (map fst (bump d m)).
Proof.
  intros H. destruct (bump_keys d m) as [->|[N ->]]; [exact H|].
  apply NoDup_app; [exact H|repeat constructor; tauto|].
  intros a Ha [<-|[]]. contradiction.
Qed.

Lemma bump_positive (d : string) (m : list (string * Z)) :
  Forall (fun e => 0 < snd e) m -> Forall (fun e => 0 < snd e) (bump d m).
Proof.
  induction 1 as [|[k c] m H Hm IH]; simpl; [repeat constructor; simpl; lia|].
  simpl in H. destruct (k =? d)%string.
  - constructor; [simpl; lia|exact Hm].
  - constructor; [exact H|exact IH].
Qed.

Section Chart.
Context {rt : Runtime}.

Lemma group_step_cases (m : list (string * Z)) (r : Row) :
  (bad_timestamp r = true /\ group_step m r = None) \/
  (bad_timestamp r = false /\
   ((truthy (blockTime r) = false /\ group_step m r = Some m /\ forall d, dated d r = false) \/
    exists n, blockTime r = VNum n /\ n <> 0 /\ group_step m r = Some (bump (toISODate n) m))).
Proof.
  unfold group_step, bad_timestamp, dated, js_or.
  destruct (blockTime r) as [| |b|n|s|l|f]; simpl; auto.
  - right. split; auto.
  - right. split; auto.
  - destruct b; simpl; auto. right. split; auto.
  - destruct (Z.eqb_spec n 0) as [->|Hn]; simpl.
    + right. split; auto.
    + right. split; auto. right. exists n. repeat split; auto.
      destruct n; simpl; congruence.
  - destruct s; simpl; auto. right. split; auto.
Qed.

Lemma occurrences_cons (d : string) (r : Row) (rows : list Row) :
  occurrences d (r :: rows) = (if dated d r then 1 else 0) + occurrences d rows.
Proof. unfold occurrences. simpl. destruct (dated d r); simpl List.length; lia. Qed.

Lemma group_loop_spec (rows : list Row) :
  forall m,
    NoDup (map fst m) -> Forall (fun e => 0 < snd e) m ->
    if existsb bad_timestamp rows then group_loop m rows = None
    else exists g,
        group_loop m rows = Some g /\ NoDup (map fst g) /\ Forall (fun e => 0 < snd e) g /\
        forall d, count_of d g = count_of d m + occurrences d rows.
Proof.
  induction rows as [|r rows IH]; intros m N P.
  - simpl. exists m. repeat split; auto. intros d. unfold occurrences. simpl. lia.
  - cbn [existsb group_loop].
    destruct (group_step_cases m r) as [[B ->]|[B [(T & -> & D)|(n & E & Hn & ->)]]];
      rewrite B; cbn [orb]; [reflexivity| |].
    + specialize (IH m N P). destruct (existsb bad_timestamp rows); [exact IH|].
      destruct IH as (g & -> & N' & P' & C). exists g. repeat split; auto.
      intros d. now rewrite occurrences_cons, D, C.
    + specialize (IH (bump (toISODate n) m) (bump_nodup _ _ N) (bump_positive _ _ P)).
      destruct (existsb bad_timestamp rows); [exact IH|].
      destruct IH as (g & -> & N' & P' & C). exists g. repeat split; auto.
      intros d. rewrite occurrences_cons, C, count_of_bump.
      unfold dated. rewrite E.
      destruct (Z.eqb_spec n 0); [contradiction|]. simpl. lia.
Qed.

End Chart.

Lemma insert_by_date_perm (e : string * Z) (l : list (string * Z)) :
  Permutation (e :: l) (insert_by_date e l).
Proof.
  induction l as [|e' l IH]; simpl; [reflexivity|].
  destruct (String.ltb (fst e) (fst e')); [reflexivity|].
  rewrite perm_swap. now constructor.
Qed.

Lemma sort_by_date_perm (l : list (string * Z)) : Permutation l (sort_by_date l).
Proof.
  induction l as [|e l IH]; simpl; [constructor|].
  rewrite <- insert_by_date_perm. now constructor.
Qed.

Lemma insert_by_date_sorted (e : string * Z) (l : list (string * Z)) :
  Sorted by_date l -> ~ In (fst e) (map fst l) -> Sorted by_date (insert_by_date e l).
Proof.
  induction 1 as [|e' l S IH H]; intros N; simpl.
  - repeat constructor.
  - destruct (String.ltb (fst e) (fst e')) eqn:L.
    + constructor; [now constructor|]. constructor. exact L.
    + assert (L' : by_date e' e).
      { apply ltb_total; [exact L|]. intros Eq. apply N. left. now symmetry. }
      constructor; [apply IH; intros I; apply N; now right|].
      destruct l as [|e'' l]; simpl; [now constructor|].
      destruct (String.ltb (fst e) (fst e'')); constructor; [exact L'|].
      now inversion H.
Qed.

Lemma sort_by_date_sorted (l : list (string * Z)) :
  NoDup (map fst l) -> Sorted by_date (sort_by_date l).
Proof.
  induction l as [|e l IH]; simpl; intros N; [constructor|].
  inversion N as [|? ? N1 N2]; subst.
  apply insert_by_date_sorted; [now apply IH|].
  intros I. apply N1.
  apply (Permutation_in _ (Permutation_sym (Permutation_map fst (sort_by_date_perm l)))).
  exact I.
Qed.

Lemma count_of_in (m : list (string * Z)) (d : string) (c : Z) :
  NoDup (map fst m) -> Forall (fun e => 0 < snd e) m ->
  In (d, c) m <-> 0 < c /\ c = count_of d m.
Proof.
  unfold count_of. induction m as [|[k x] m IH]; simpl; intros N P.
  - split; [tauto|lia].
  - inversion N as [|? ? N1 N2]; subst. inversion P as [|? ? P1 P2]; subst.
    simpl in P1. destruct (String.eqb_spec k d) as [->|Hk]; simpl.
    + split.
      * intros [[= <-]|I]; [lia|]. exfalso. apply N1.
        now apply (in_map fst) in I.
      * intros [_ ->]. now left.
    + rewrite <- (IH N2 P2). split; [intros [[= -> _]|I]; [contradiction|exact I]|tauto].
Qed.

(** The chart cannot be computed exactly when some row carries a truthy
    time stamp that is not a number; otherwise, over rows whose time
    stamps luxon can date, [groupByDate] returns its days in strictly
    ascending order, each day once, with the number of rows of that day,
    and only days that have a row. *)
Theorem groupByDate_counts_rows_per_day {rt : Runtime} (rows : list Row) :
  (groupByDate rows = None <-> existsb bad_timestamp rows = true)
  /\
  (forallb datable rows = true ->
   forall g,
      groupByDate rows = Some g ->
      Sorted by_date g /\
      NoDup (map fst g) /\
      forall d c, In (d, c) g <-> 0 < c /\ c = occurrences d rows).
Proof.
  unfold groupByDate.
  pose proof (group_loop_spec rows [] ltac:(constructor) ltac:(constructor)) as H.
  destruct (existsb bad_timestamp rows).
  - rewrite H. split; [tauto|discriminate].
  - destruct H as (m & -> & N & P & C). split; [split; discriminate|].
    intros _ g [= <-].
    pose proof (sort_by_date_perm m) as Pm.
    split; [now apply sort_by_date_sorted|].
    split; [apply (Permutation_NoDup (Permutation_map fst Pm) N)|].
    intros d c.
    assert (I : In (d, c) (sort_by_date m) <-> In (d, c) m).
    { split; apply Permutation_in; [now apply Permutation_sym|exact Pm]. }
    rewrite I, (count_of_in m d c N P), C. unfold count_of. simpl. reflexivity.
Qed.

(** ** The failed counter *)

Lemma failed_app (l1 l2 : list Row) : failed (l1 ++ l2) = failed l1 + failed l2.
Proof. unfold failed, len. rewrite filter_app, length_app. lia. Qed.

Lemma truthy_js_or (a b : value) : truthy (js_or a b) = truthy a || truthy b.
Proof. unfold js_or. destruct (truthy a) eqn:E; [now rewrite E|reflexivity]. Qed.

(** The counter of failed transactions lies between 0 and the number of
    rows and adds up over concatenation; over normalised transaction
    entries it counts the entries whose [err] or [error] is truthy, over
    normalised balance-change entries those whose [err] is truthy. *)
Theorem failed_counts_truthy_errors (l1 l2 : list Row) (elts : list value) :
  0 <= failed l1 <= len l1 /\
  failed (l1 ++ l2) = failed l1 + failed l2 /\
  failed (map normalizeTx elts)
  = Z.of_nat (List.length
                (filter (fun t => truthy (get_prop t "err") || truthy (get_prop t "error")) elts)) /\
  failed (map normalizeBalance elts)
  = Z.of_nat (List.length (filter (fun x => truthy (get_prop x "err")) elts)).
Proof.
  split; [|split; [apply failed_app|split]].
  - unfold failed, len.
    pose proof (filter_length_le (fun r => truthy (err r)) l1). lia.
  - unfold failed, len. f_equal.
    induction elts as [|t elts IH]; [reflexivity|].
    cbn [map filter]. cbn [normalizeTx err].
    rewrite !truthy_js_or. cbn [truthy]. rewrite orb_false_r.
    destruct (truthy (get_prop t "err") || truthy (get_prop t "error"));
      simpl List.length; now rewrite IH.
  - unfold failed, len. f_equal.
    induction elts as [|t elts IH]; [reflexivity|].
    cbn [map filter]. cbn [normalizeBalance err].
    rewrite truthy_js_or. cbn [truthy]. rewrite orb_false_r.
    destruct (truthy (get_prop t "err")); simpl List.length; now rewrite IH.
Qed.

(** ** The pages the paginator yields *)

Section Yields.
Context {rt : Runtime}.
Variable net : Network.
Variables (address apiKey : string) (limit : Z).

Lemma gen_next_cases (g : gen) (n : nat) :
  gen_next net address apiKey limit g n = ([], n, Ok None) \/
  exists h,
    gen_next net address apiKey limit g n =
      ([Net (ReqTx address apiKey limit h) (net n (ReqTx address apiKey limit h))], S n,
       match net n (ReqTx address apiKey limit h) with
       | Rejected msg => Throw (ErrRejected msg)
       | HttpNotOk st => Throw (ErrTransactions st)
       | HttpOk body => if nonempty (tx_list body) then Ok (Some (tx_list body)) else Ok None
       end).
Proof.
  destruct g as [|lst]; simpl.
  - right. exists VUndefined. apply gen_fetch_cases.
  - destruct (truthy (opt_get (last_elem lst) "txHash")); simpl; [|now left].
    right. eexists. apply gen_fetch_cases.
Qed.

Lemma iterTransactions_yields (fuel : nat) :
  forall g n tr n' batches,
    iterTransactions_from net fuel address apiKey limit g n = (tr, n', Ok batches) ->
    batches = filter nonempty (tx_lists tr) /\
    n' = (n + List.length tr)%nat /\
    (List.length tr = List.length batches \/ List.length tr = S (List.length batches)).
Proof.
  induction fuel as [|fuel IH]; intros g n tr n' batches; [discriminate|].
  cbn [iterTransactions_from]. unfold bind at 1.
  destruct (gen_next_cases g n) as [->|(h & ->)].
  - cbn. intros [= <- <- <-]. repeat split; auto; lia.
  - destruct (net n (ReqTx address apiKey limit h)) as [msg|st|body]; try discriminate.
    destruct (nonempty (tx_list body)) eqn:L.
    + unfold bind.
      destruct (iterTransactions_from net fuel address apiKey limit
                  (GenSuspended (tx_list body)) (S n)) as [[t2 n2] [rest|e|]] eqn:E;
        try discriminate.
      cbn. intros [= <- <- <-].
      destruct (IH _ _ _ _ _ E) as (-> & -> & C).
      rewrite app_nil_r. cbn [tx_lists flat_map app filter]. fold (tx_lists t2).
      rewrite L. repeat split; auto; simpl List.length; lia.
    + cbn. intros [= <- <- <-]. cbn. rewrite L. repeat split; auto. lia.
Qed.

End Yields.

(** The paginator yields exactly the non-empty pages it received, in the
    order received; it issues one request per event of its trace, and at
    most one request beyond the pages it yields. *)
Theorem paginator_yields_received_pages {rt : Runtime} (net : Network)
    (address apiKey : string) (limit : Z) (fuel n : nat) tr n' batches :
  iterTransactions net fuel address apiKey limit n = (tr, n', Ok batches) ->
  batches = filter nonempty (tx_lists tr) /\
  n' = (n + List.length tr)%nat /\
  (List.length tr = List.length batches \/ List.length tr = S (List.length batches)).
Proof. apply iterTransactions_yields. Qed.

Lemma paginator_yields_received_pages_witness :
  [VArr [VObj [("blockTime", VNum 100)]]]
  = filter nonempty
      (tx_lists [Net (ReqTx "addr" "key" 50 VUndefined)
                   (HttpOk (tx_body [VObj [("blockTime", VNum 100)]]))]) /\
  1%nat = (0 + List.length [Net (ReqTx "addr" "key" 50 VUndefined)
                              (HttpOk (tx_body [VObj [("blockTime", VNum 100)]]))])%nat /\
  (List.length [Net (ReqTx "addr" "key" 50 VUndefined)
                  (HttpOk (tx_body [VObj [("blockTime", VNum 100)]]))]
   = List.length [VArr [VObj [("blockTime", VNum 100)]]] \/
   List.length [Net (ReqTx "addr" "key" 50 VUndefined)
                  (HttpOk (tx_body [VObj [("blockTime", VNum 100)]]))]
   = S (List.length [VArr [VObj [("blockTime", VNum 100)]]])).
Proof.
  apply (@paginator_yields_received_pages plain_runtime net_eleven "addr" "key" 50 5 0).
  reflexivity.
Defined.

(** ** Progress of the crawl *)

(** Once the crawl holds at least [Math.max(500, maxRows)] rows it
    reports 95, the most it ever reports: in particular whenever the rows
    have reached a cap of 500 or more.  The quotient of line 91 is then
    at least 1, in double precision as well. *)
Theorem crawl_progress_tops_at_95 (cfg : Config) (n : Z) :
  (Z.max 500 (maxRows cfg) <= n -> tx_progress cfg n = 95) /\
  (500 <= maxRows cfg -> maxRows cfg <= n -> tx_progress cfg n = 95).
Proof.
  assert (K : Z.max 500 (maxRows cfg) <= n -> tx_progress cfg n = 95).
  { unfold tx_progress, round_share.
    set (m := Z.max 500 (maxRows cfg)). intros H.
    assert (Hm : 0 < 2 * m) by lia.
    assert (35 <= (2 * 35 * n + m) / (2 * m)) by (apply Z.div_le_lower_bound; lia).
    lia. }
  split; [exact K|]. intros H1 H2. apply K. lia.
Qed.

Lemma crawl_progress_tops_at_95_witness :
  tx_progress (cfg_nodates 20000) 20000 = 95 /\ tx_progress (cfg_nodates 3) 500 = 95.
Proof.
  split.
  - apply (proj2 (crawl_progress_tops_at_95 (cfg_nodates 20000) 20000)); simpl; lia.
  - apply (proj1 (crawl_progress_tops_at_95 (cfg_nodates 3) 500)); simpl; lia.
Defined.

Lemma balanceLoop_terminates_witness :
  outcome_of (balanceLoop cfg_cap1 net_shared 2 1 2000 1 [] 1%nat) <> Pending.
Proof.
  apply (@balanceLoop_terminates plain_runtime cfg_cap1 net_shared 1 2000 2 1 [] 1%nat).
  simpl. lia.
Defined.

(** Within each loop the reported progress never goes back: the values
    the balance-change loop reports are in non-decreasing order, and so
    are those of the crawl. *)
Theorem progress_monotone_within_phase {rt : Runtime} (cfg : Config) (net : Network)
    (fuel : nat) :
  (forall from to n t n1 r,
      balanceLoop cfg net fuel from to 1 [] n = (t, n1, r) ->
      StronglySorted Z.le (progress_values t))
  /\
  (forall n ct n2 r,
      txLoop cfg net fuel GenStart [] n = (ct, n2, r) ->
      StronglySorted Z.le (progress_values ct)).
Proof.
  split.
  - intros from to n t n1 r H. apply balanceLoop_sound in H.
    now apply balance_run_progress in H.
  - intros n ct n2 r H. apply txLoop_sound in H.
    apply tx_run_progress in H; [tauto|].
    now rewrite date_filter_keeps.
Qed.

Lemma progress_monotone_within_phase_witness :
  StronglySorted Z.le
    (progress_values
       (fst (fst (balanceLoop cfg_dates net_eleven 20 1 2000 1 [] 1%nat)))) /\
  StronglySorted Z.le
    (progress_values
       (fst (fst (@txLoop plain_runtime (cfg_nodates 3) net_pages 10 GenStart [] 1%nat)))).
Proof.
  split.
  - apply (proj1 (@progress_monotone_within_phase plain_runtime cfg_dates net_eleven 20)
             1 2000 1%nat _ (snd (fst (balanceLoop cfg_dates net_eleven 20 1 2000 1 [] 1%nat)))
             (snd (balanceLoop cfg_dates net_eleven 20 1 2000 1 [] 1%nat))).
    reflexivity.
  - apply (proj2 (@progress_monotone_within_phase plain_runtime (cfg_nodates 3) net_pages 10)
             1%nat _ 3%nat
             (Ok [row_of 300 "P"; row_of 200 "Q"; row_of 300 "P"; row_of 200 "Q"])).
    reflexivity.
Defined.

Lemma groupByDate_counts_rows_per_day_witness :
  Sorted by_date [("", 2)] /\
  NoDup (map fst [("", 2)]) /\
  forall d c,
    In (d, c) [("", 2)]
    <-> 0 < c /\
        c = @occurrences plain_runtime d [row_of 100 "A"; row_of 0 "B"; row_of 200 "C"].
Proof.
  apply (proj2 (@groupByDate_counts_rows_per_day plain_runtime
                  [row_of 100 "A"; row_of 0 "B"; row_of 200 "C"])).
  - reflexivity.
  - reflexivity.
Defined.
